(** * FastAPI-Car-Models: a shallow embedding of [main.py]

    The service is a set of FastAPI route handlers over two SQLite tables
    ([users] and [car_models]), a directory of uploaded images and the
    python-jose / passlib libraries.  Handlers are embedded as pure functions
    with explicit state passing; exceptions are values of [outcome]. *)

From Stdlib Require Import ZArith.
From stdpp Require Import gmap strings list fin_maps pretty sorting.

Local Open Scope string_scope.
Local Open Scope Z_scope.

(** ** Exceptions and HTTP responses *)

(** The exceptions the handlers can raise.  [HTTPException] carries the
    status code, the detail and the headers, as in FastAPI. *)
Inductive exn : Type :=
| HTTPException (status_code : Z) (detail : string)
                (headers : list (string * string))
| JWTError
| TypeError
| ValidationError
| OSError
| OverflowError
| IntegrityError
| OperationalError
| ValueError.

(** A Python call either returns a value or raises. *)
Inductive outcome (A : Type) : Type :=
| Ok (a : A)
| Raise (e : exn).
Arguments Ok {A} a.
Arguments Raise {A} e.

(** Sequencing: the first exception raised is the result. *)
Global Instance outcome_bind : MBind outcome := λ A B k o,
  match o with
  | Ok a => k a
  | Raise e => Raise e
  end.

(** What FastAPI sends: the body under the route's status code, the
    [HTTPException] as raised, and a 500 for every other exception. *)
Inductive http_response (A : Type) : Type :=
| Response (status : Z) (body : A)
| ErrorResponse (status : Z) (detail : string)
                (headers : list (string * string)).
Arguments Response {A} status body.
Arguments ErrorResponse {A} status detail headers.

Definition respond {A} (status_code : Z) (o : outcome A) : http_response A :=
  match o with
  | Ok body => Response status_code body
  | Raise (HTTPException s d h) => ErrorResponse s d h
  | Raise _ => ErrorResponse 500 "Internal Server Error" []
  end.

Definition HTTP_202_ACCEPTED : Z := 202.
Definition HTTP_201_CREATED : Z := 201.
Definition HTTP_400_BAD_REQUEST : Z := 400.
Definition HTTP_401_UNAUTHORIZED : Z := 401.
Definition HTTP_404_NOT_FOUND : Z := 404.

(** ** Config *)

Definition IMAGE_DIR : string := "uploaded_images".
Definition SECRET_KEY : string :=
  "c1591e1c961c5da73be50b329c8390a2ec7d38c3e5615152ec10f4c0202fbaa4".
Definition ALGORITHM : string := "HS256".
Definition ACCESS_TOKEN_EXPIRE_MINUTES : Z := 30.

(** ** Time

    A [datetime] is its number of microseconds since the epoch and a
    [timedelta] a number of microseconds. *)
Definition timedelta_minutes (m : Z) : Z := m * 60 * 1000000.

(** [calendar.timegm(d.utctimetuple())]: whole seconds, microseconds dropped. *)
Definition timegm (us : Z) : Z := us / 1000000.

(** [datetime.min] and [datetime.max]: the first microsecond of year 1
    and the last of year 9999. *)
Definition DATETIME_MIN : Z := -62135596800000000.
Definition DATETIME_MAX : Z := 253402300799999999.

Definition is_datetime (us : Z) : bool :=
  (DATETIME_MIN <=? us) && (us <=? DATETIME_MAX).

(** A reading of the clock: a [datetime] with a day to spare on both
    sides of the range of the type. *)
Definition clock_reading (us : Z) : bool :=
  (DATETIME_MIN + 86400000000 <=? us) && (us <=? DATETIME_MAX - 86400000000).

(** [utcnow + delta] for a reading [utcnow] of the clock: an
    [OverflowError] when the sum is not a [datetime].  A number that is
    not a reading of the clock is outside the model; the sum is then given
    as it is. *)
Definition datetime_add (utcnow delta : Z) : outcome Z :=
  if clock_reading utcnow && negb (is_datetime (utcnow + delta))
  then Raise OverflowError
  else Ok (utcnow + delta).

(** ** The JWT library (python-jose) *)

(** Claim values: JSON strings and integers, and a [datetime], which is what
    [create_access_token] puts under ["exp"] before encoding. *)
Inductive jvalue : Type :=
| JStr (s : string)
| JInt (n : Z)
| JDatetime (us : Z).

Definition json_serializable (v : jvalue) : Prop :=
  match v with
  | JDatetime _ => False
  | _ => True
  end.

Global Instance json_serializable_dec v : Decision (json_serializable v).
Proof. destruct v; simpl; apply _. Defined.

(** What the library rests on is an interface: a token type, signing and
    verification ([jws.sign] and [jws.verify]) with the one law the handlers
    depend on, that a token signed under a key and algorithm verifies under
    them to the payload that was signed, and Python's [int] on a [str],
    which the library applies to the time claims. *)
Class JWS : Type := {
  token : Type;
  jws_sign : gmap string jvalue → string → string → token;
  jws_verify : token → string → list string → option (gmap string jvalue);
  int_of_str : string → option Z;
  jws_verify_sign : ∀ (claims : gmap string jvalue) (key alg : string),
    map_Forall (λ _ v, json_serializable v) claims →
    jws_verify (jws_sign claims key alg) key [alg] = Some claims
}.

(** [jwt.encode] turns a [datetime] under ["exp"], ["iat"] and ["nbf"] into
    whole seconds. *)
Definition to_intdate (v : jvalue) : jvalue :=
  match v with
  | JDatetime us => JInt (timegm us)
  | _ => v
  end.

Definition convert_time_claims (claims : gmap string jvalue)
  : gmap string jvalue :=
  alter to_intdate "nbf" (alter to_intdate "iat" (alter to_intdate "exp" claims)).

(** [_validate_sub] and [_validate_jti]: the claim, when present, is a
    string. *)
Definition validate_str (key : string) (claims : gmap string jvalue) : bool :=
  match claims !! key with
  | None => true
  | Some (JStr _) => true
  | Some _ => false
  end.

Definition validate_sub (claims : gmap string jvalue) : bool :=
  validate_str "sub" claims.

Definition validate_jti (claims : gmap string jvalue) : bool :=
  validate_str "jti" claims.

(** [_validate_aud] without an expected audience and [_validate_at_hash]
    without an access token: the claim is refused when it is present. *)
Definition validate_absent (key : string) (claims : gmap string jvalue)
  : bool :=
  match claims !! key with
  | None => true
  | Some _ => false
  end.

Section jwt.
Context {jws : JWS}.

(** [int(claims[key])] on a value decoded from JSON. *)
Definition claim_int (v : jvalue) : option Z :=
  match v with
  | JInt n => Some n
  | JStr s => int_of_str s
  | JDatetime _ => None
  end.

(** [_validate_iat]: the claim, when present, converts to an integer. *)
Definition validate_iat (claims : gmap string jvalue) : bool :=
  match claims !! "iat" with
  | None => true
  | Some v => bool_decide (is_Some (claim_int v))
  end.

(** [_validate_nbf]: the claim, when present, converts to an integer that
    is not above the current second. *)
Definition validate_nbf (claims : gmap string jvalue) (now : Z) : bool :=
  match claims !! "nbf" with
  | None => true
  | Some v =>
      match claim_int v with
      | Some nbf => negb (now <? nbf)
      | None => false
      end
  end.

(** [_validate_exp]: the claim, when present, converts to an integer that
    is not below the current second. *)
Definition validate_exp (claims : gmap string jvalue) (now : Z) : bool :=
  match claims !! "exp" with
  | None => true
  | Some v =>
      match claim_int v with
      | Some e => negb (e <? now)
      | None => false
      end
  end.

(** [_validate_claims] with the default options and no audience, issuer,
    subject or access token. *)
Definition validate_claims (claims : gmap string jvalue) (now : Z) : bool :=
  validate_iat claims
  && validate_nbf claims now
  && validate_exp claims now
  && validate_absent "aud" claims
  && validate_sub claims
  && validate_jti claims
  && validate_absent "at_hash" claims.

(** [jwt.encode(claims, key, algorithm)]; [json.dumps] raises a [TypeError]
    on a [datetime] that is left in the payload. *)
Definition jwt_encode (claims : gmap string jvalue) (key alg : string)
  : outcome token :=
  let claims := convert_time_claims claims in
  if decide (map_Forall (λ _ v, json_serializable v) claims)
  then Ok (jws_sign claims key alg)
  else Raise TypeError.

(** [jwt.decode(token, key, algorithms)] at clock reading [utcnow]: every
    failure (signature, expiry, claims) is a [JWTError]. *)
Definition jwt_decode (tok : token) (key : string) (algorithms : list string)
    (utcnow : Z) : outcome (gmap string jvalue) :=
  match jws_verify tok key algorithms with
  | None => Raise JWTError
  | Some claims =>
      if validate_claims claims (timegm utcnow)
      then Ok claims
      else Raise JWTError
  end.
End jwt.

(** ** User models and the [users] table *)

Record UserInDB : Type := {
  username : string;
  email : option string;
  full_name : option string;
  disabled : option bool;
  hashed_password : string
}.

(** A row of [users]; the table is the list of its rows in rowid order. *)
Record user_row : Type := {
  user_id : Z;
  user_username : string;
  user_email : string;
  user_full_name : option string;
  user_hashed_password : string;
  user_disabled : bool
}.

(** The [UserInDB] built from the keywords of a row: the row's [id] is
    dropped. *)
Definition UserInDB_of_row (r : user_row) : UserInDB :=
  {| username := user_username r;
     email := Some (user_email r);
     full_name := user_full_name r;
     disabled := Some (user_disabled r);
     hashed_password := user_hashed_password r |}.

(** [SELECT * FROM users WHERE username = ?] then [fetchone()]. *)
Definition select_user (users : list user_row) (name : string)
  : option user_row :=
  find (λ r, String.eqb (user_username r) name) users.

(** Truth value of a Python [str]. *)
Definition str_truthy (s : string) : bool :=
  match s with
  | EmptyString => false
  | _ => true
  end.

(** [get_user]: the guard tests [username], not the fetched row, so a
    missing row ([None]) is unpacked as the keywords of [UserInDB], a
    [TypeError]; the function returns [None] on the empty username only. *)
Definition get_user (users : list user_row) (name : string)
  : outcome (option UserInDB) :=
  let user := select_user users name in
  if str_truthy name then
    match user with
    | Some r => Ok (Some (UserInDB_of_row r))
    | None => Raise TypeError
    end
  else Ok None.
(** The [timedelta] that [create_access_token] adds to the clock:
    [if expires_delta:] is false on [None] and on a zero [timedelta], and
    the fallback is 15 minutes. *)
Definition effective_delta (expires_delta : option Z) : Z :=
  match expires_delta with
  | Some delta => if delta =? 0 then timedelta_minutes 15 else delta
  | None => timedelta_minutes 15
  end.

Section auth.
Context {jws : JWS}.
(** [pwd_context.verify] of passlib. *)
Variable verify_password : string → string → bool.

(** [authenticate_user]; the [False] it returns is [None] here. *)
Definition authenticate_user (users : list user_row)
    (name password : string) : outcome (option UserInDB) :=
  user ← get_user users name;
  match user with
  | None => Ok None
  | Some u =>
      if negb (verify_password password (hashed_password u))
      then Ok None
      else Ok (Some u)
  end.

(** [create_access_token(data, expires_delta)] at clock reading [utcnow]. *)
Definition create_access_token (data : gmap string jvalue)
    (expires_delta : option Z) (utcnow : Z) : outcome token :=
  let to_encode := data in
  expire ← datetime_add utcnow (effective_delta expires_delta);
  let to_encode := <["exp" := JDatetime expire]> to_encode in
  jwt_encode to_encode SECRET_KEY ALGORITHM.

(** The exception of a failed login. *)
Definition incorrect_username_or_password : exn :=
  HTTPException HTTP_401_UNAUTHORIZED "Incorrect username or password"
                [("WWW-Authenticate", "Bearer")].

Definition credential_exception : exn :=
  HTTPException HTTP_401_UNAUTHORIZED "Could not validate credentials"
                [("WWW-Authenticate", "Bearer")].

(** The [try] block of [get_current_user]: the username in the token. *)
Definition decode_token_data (tok : token) (utcnow : Z) : outcome string :=
  match jwt_decode tok SECRET_KEY [ALGORITHM] utcnow with
  | Raise JWTError => Raise credential_exception
  | Raise e => Raise e
  | Ok payload =>
      match payload !! "sub" with
      | Some (JStr name) => Ok name
      | Some _ => Raise ValidationError
      | None => Raise credential_exception
      end
  end.

Definition get_current_user (users : list user_row) (tok : token)
    (utcnow : Z) : outcome UserInDB :=
  name ← decode_token_data tok utcnow;
  user ← get_user users name;
  match user with
  | None => Raise credential_exception
  | Some u => Ok u
  end.

Definition get_current_active_user (users : list user_row) (tok : token)
    (utcnow : Z) : outcome UserInDB :=
  current_user ← get_current_user users tok utcnow;
  if default false (disabled current_user)
  then Raise (HTTPException HTTP_400_BAD_REQUEST "Inactive user" [])
  else Ok current_user.

Record Token : Type := { access_token : token; token_type : string }.

(** [POST /token]. *)
Definition login_for_access_token (users : list user_row)
    (form_username form_password : string) (utcnow : Z) : outcome Token :=
  user ← authenticate_user users form_username form_password;
  match user with
  | None => Raise incorrect_username_or_password
  | Some u =>
      let access_token_expires :=
        timedelta_minutes ACCESS_TOKEN_EXPIRE_MINUTES in
      access_token ←
        create_access_token {["sub" := JStr (username u)]}
          (Some access_token_expires) utcnow;
      Ok {| access_token := access_token; token_type := "bearer" |}
  end.
End auth.

(** ** Car models and the [car_models] table *)

(** The Python [float] of [price] and the SQLite [REAL] that stores it.
    A NaN is bound as [NULL]; an infinity is stored but has no JSON form;
    the value read back, [real_stored], is the value stored but for the sign
    of a zero, so it is equal to it as a float ([real_eq]) without being the
    same.  The column is [NOT NULL], and the values stored are ordered by a
    total preorder. *)
Class SqlReal : Type := {
  real : Type;
  real_le : relation real;
  real_le_dec :: RelDecision real_le;
  real_le_total :: Total real_le;
  real_le_trans :: Transitive real_le;
  real_is_nan : real → bool;
  real_is_finite : real → bool;
  real_stored : real → real;
  real_eq : relation real;
  real_finite_not_nan : ∀ x, real_is_finite x = true → real_is_nan x = false;
  real_stored_finite : ∀ x, real_is_finite (real_stored x) = real_is_finite x;
  real_stored_eq : ∀ x, real_is_nan x = false → real_eq (real_stored x) x
}.

(** The file system under [IMAGE_DIR]: opening a path for writing and
    writing the bytes either gives the new file system or fails. *)
Class FileSystem : Type := {
  filesystem : Type;
  write_file : filesystem → string → string → option filesystem
}.

(** The columns that the route declares as the values of [sort_by], and
    their names. *)
Inductive column : Type := Id | Manufacturer | Model | Year | Price.

Definition column_name (c : column) : string :=
  match c with
  | Id => "id"
  | Manufacturer => "manufacturer"
  | Model => "model"
  | Year => "year"
  | Price => "price"
  end.

Record UploadFile : Type := { filename : string; file : string }.
Record Info : Type := { info : string }.
Record Ack : Type := { ok : bool }.

(** What the driver binds as an SQLite [INTEGER]: a Python [int] outside 64
    bits raises an [OverflowError]. *)
Definition in_int64 (z : Z) : bool :=
  (-9223372036854775808 <=? z) && (z <=? 9223372036854775807).

(** The text of the query of [read_car_models]: [sort_by] is pasted into
    it as it is. *)
Definition final_query (sort_by : option string) (descending : option bool)
  : string :=
  let base_query := "SELECT * FROM car_models" in
  let order_clause :=
    match sort_by with
    | Some s =>
        if str_truthy s
        then " ORDER BY " +:+ s +:+ " "
               +:+ (if default false descending then "DESC" else "ASC")
        else ""
    | None => ""
    end in
  base_query +:+ order_clause +:+ " LIMIT ?".

(** The query texts whose meaning is modelled: no [ORDER BY], or one of the
    five columns in one of the two directions. *)
Definition known_queries : list (string * option (column * bool)) :=
  (final_query None None, None)
  :: (c ← [Id; Manufacturer; Model; Year; Price];
      [ (final_query (Some (column_name c)) (Some false), Some (c, false));
        (final_query (Some (column_name c)) (Some true), Some (c, true)) ]).

Definition parse_query (query : string) : option (option (column * bool)) :=
  snd <$> find (λ q, String.eqb q.1 query) known_queries.

Section car_models.
Context {R : SqlReal}.

Record CarModel : Type := {
  manufacturer : string;
  model : string;
  year : Z;
  price : real
}.

Record CarModelInDB : Type := {
  base :> CarModel;
  car_model_id : Z
}.

(** A row of [car_models] without its [id], which is the key of the
    table: [id] is the [INTEGER PRIMARY KEY]. *)
Record car_row : Type := {
  row_manufacturer : string;
  row_model : string;
  row_year : Z;
  row_price : real;
  row_image_path : option string
}.

(** The database file: the table and the counter [AUTOINCREMENT] keeps in
    [sqlite_sequence] (the largest id ever assigned). *)
Record database : Type := {
  car_models : gmap Z car_row;
  sqlite_sequence : Z
}.

(** What SQLite answers to a query text that is none of [known_queries],
    given the bound limit and the table.  The text starts with [SELECT *
    FROM car_models] and is one statement, so whatever was pasted after
    [ORDER BY], the rows of an answer are rows of the table, each at most
    once. *)
Class OtherQueries : Type := {
  execute_other :
    string → Z → gmap Z car_row → outcome (list (Z * car_row));
  execute_other_rows : ∀ query limit t rows,
    execute_other query limit t = Ok rows →
    NoDup rows.*1 ∧ ∀ k r, (k, r) ∈ rows → t !! k = Some r
}.

(** The response model [CarModelInDB] of a row; [image_path] is not part
    of it. *)
Definition CarModelInDB_of_row (r : Z * car_row) : CarModelInDB :=
  {| base := {| manufacturer := row_manufacturer r.2;
                model := row_model r.2;
                year := row_year r.2;
                price := row_price r.2 |};
     car_model_id := r.1 |}.

(** The JSON response: a price that is not finite has no JSON form and the
    rendering raises a [ValueError]. *)
Definition render (car_model : CarModelInDB) : outcome CarModelInDB :=
  if real_is_finite (price car_model) then Ok car_model else Raise ValueError.

Definition render_list (body : list CarModelInDB)
  : outcome (list CarModelInDB) :=
  if forallb (λ x : CarModelInDB, real_is_finite (price x)) body
  then Ok body
  else Raise ValueError.

Definition max_rowid (t : gmap Z car_row) : Z :=
  foldr Z.max 0 (map_to_list t).*1.

(** The id [AUTOINCREMENT] gives to an inserted row. *)
Definition next_rowid (db : database) : Z :=
  Z.max (sqlite_sequence db) (max_rowid (car_models db)) + 1.

(** [INSERT INTO car_models (manufacturer, model, year, price) VALUES
    (?, ?, ?, ?)] and [cursor.lastrowid].  A year outside 64 bits is not
    bound, a NaN price is bound as [NULL] and breaks [NOT NULL], and no id
    is left past the largest 64-bit integer. *)
Definition insert_car_model (db : database) (car_model : CarModel)
  : outcome (database * Z) :=
  if negb (in_int64 (year car_model)) then Raise OverflowError
  else if real_is_nan (price car_model) then Raise IntegrityError
  else
    let car_model_id := next_rowid db in
    if negb (in_int64 car_model_id) then Raise OperationalError
    else
      let row := {| row_manufacturer := manufacturer car_model;
                    row_model := model car_model;
                    row_year := year car_model;
                    row_price := real_stored (price car_model);
                    row_image_path := None |} in
      Ok ({| car_models := <[car_model_id := row]> (car_models db);
             sqlite_sequence := car_model_id |}, car_model_id).

(** [POST /car_models/] *)
Definition create_car_model (db : database) (car_model : CarModel)
  : database * outcome CarModelInDB :=
  match insert_car_model db car_model with
  | Raise e => (db, Raise e)
  | Ok (db', car_model_id) =>
      (db', render {| base := car_model; car_model_id := car_model_id |})
  end.

(** [GET /car_models/{car_model_id}] *)
Definition read_car_model (db : database) (car_model_id : Z)
  : outcome CarModelInDB :=
  if negb (in_int64 car_model_id) then Raise OverflowError
  else
    match car_models db !! car_model_id with
    | None =>
        Raise (HTTPException 404
                 ("CarModel with id: '" +:+ pretty car_model_id
                    +:+ "' was not found") [])
    | Some car_model => render (CarModelInDB_of_row (car_model_id, car_model))
    end.

(** [cursor.rowcount] of an [UPDATE] or [DELETE] with [WHERE id = ?]. *)
Definition rowcount (t : gmap Z car_row) (car_model_id : Z) : Z :=
  match t !! car_model_id with
  | Some _ => 1
  | None => 0
  end.

(** [SET manufacturer = ?, model = ?, year = ?, price = ?] *)
Definition set_car_model (car_model : CarModel) (r : car_row) : car_row :=
  {| row_manufacturer := manufacturer car_model;
     row_model := model car_model;
     row_year := year car_model;
     row_price := real_stored (price car_model);
     row_image_path := row_image_path r |}.

(** [PUT /car_models/{car_model_id}]: a NaN price breaks [NOT NULL] only
    when the [WHERE] matches a row. *)
Definition update_car_model (db : database) (car_model_id : Z)
    (car_model : CarModel) : database * outcome CarModelInDB :=
  if negb (in_int64 (year car_model) && in_int64 car_model_id)
  then (db, Raise OverflowError)
  else if (0 <? rowcount (car_models db) car_model_id)
          && real_is_nan (price car_model)
  then (db, Raise IntegrityError)
  else
    let db' :=
      {| car_models :=
           alter (set_car_model car_model) car_model_id (car_models db);
         sqlite_sequence := sqlite_sequence db |} in
    if rowcount (car_models db) car_model_id =? 0
    then (db', Raise (HTTPException 404 "CarModel not found" []))
    else (db', render {| base := car_model; car_model_id := car_model_id |}).

(** [DELETE /car_models/{car_model_id}] *)
Definition delete_car_model (db : database) (car_model_id : Z)
  : database * outcome Ack :=
  if negb (in_int64 car_model_id) then (db, Raise OverflowError)
  else
    let db' :=
      {| car_models := delete car_model_id (car_models db);
         sqlite_sequence := sqlite_sequence db |} in
    if rowcount (car_models db) car_model_id =? 0
    then (db', Raise (HTTPException HTTP_404_NOT_FOUND "CarModel not found" []))
    else (db', Ok {| ok := true |}).

(** [SET image_path = ?] *)
Definition set_image_path (p : option string) (r : car_row) : car_row :=
  {| row_manufacturer := row_manufacturer r;
     row_model := row_model r;
     row_year := row_year r;
     row_price := row_price r;
     row_image_path := p |}.

Definition update_image_path (db : database) (car_model_id : Z)
    (p : option string) : database :=
  {| car_models := alter (set_image_path p) car_model_id (car_models db);
     sqlite_sequence := sqlite_sequence db |}.

Section images.
Context {FS : FileSystem}.

(** [POST /car_models/{car_model_id}/image/]: the file is written before
    the id is bound, and the row count of the [UPDATE] is not looked at. *)
Definition upload_car_model_image (fs : filesystem) (db : database)
    (car_model_id : Z) (f : UploadFile)
  : filesystem * database * outcome Info :=
  let file_location := IMAGE_DIR +:+ "/" +:+ filename f in
  match write_file fs file_location (file f) with
  | None => (fs, db, Raise OSError)
  | Some fs' =>
      if negb (in_int64 car_model_id) then (fs', db, Raise OverflowError)
      else
        (fs', update_image_path db car_model_id (Some file_location),
         Ok {| info := "image of Car Model id:'" +:+ pretty car_model_id
                         +:+ "' was set to '" +:+ filename f +:+ "'" |})
  end.

(** [PUT /car_models/{car_model_id}/image/] *)
Definition update_car_model_image (fs : filesystem) (db : database)
    (car_model_id : Z) (f : UploadFile)
  : filesystem * database * outcome Info :=
  let file_location := IMAGE_DIR +:+ "/" +:+ filename f in
  match write_file fs file_location (file f) with
  | None => (fs, db, Raise OSError)
  | Some fs' =>
      if negb (in_int64 car_model_id) then (fs', db, Raise OverflowError)
      else
        let db' := update_image_path db car_model_id (Some file_location) in
        if rowcount (car_models db) car_model_id =? 0
        then (fs', db', Raise (HTTPException 404 "CarModel not found" []))
        else
          (fs', db',
           Ok {| info := "image of Car Model id:'" +:+ pretty car_model_id
                           +:+ "' was updated to '" +:+ filename f +:+ "'" |})
  end.
End images.

(** [DELETE /car_models/{car_model_id}/image/] *)
Definition delete_car_model_image (db : database) (car_model_id : Z)
  : database * outcome Info :=
  if negb (in_int64 car_model_id) then (db, Raise OverflowError)
  else
    (update_image_path db car_model_id None,
     Ok {| info := "Deleted image link on model id: "
                     +:+ pretty car_model_id |}).

(** *** [GET /car_models/] *)

(** The order of a column: integers by value, [TEXT] bytewise, [REAL] by
    [real_le]. *)
Definition column_le (c : column) : relation (Z * car_row) := λ a b,
  match c with
  | Id => a.1 ≤ b.1
  | Manufacturer =>
      String.leb (row_manufacturer a.2) (row_manufacturer b.2) = true
  | Model => String.leb (row_model a.2) (row_model b.2) = true
  | Year => row_year a.2 ≤ row_year b.2
  | Price => real_le (row_price a.2) (row_price b.2)
  end.

Global Instance column_le_dec c : RelDecision (column_le c).
Proof. intros a b. destruct c; simpl; apply _. Defined.

(** [SELECT * FROM car_models]: the rows in rowid order. *)
Definition select_all (t : gmap Z car_row) : list (Z * car_row) :=
  merge_sort (column_le Id) (map_to_list t).

(** [ORDER BY {sort_by} ASC|DESC], present when [sort_by] is. *)
Definition order_by (sort_by : option column) (descending : option bool)
    (rows : list (Z * car_row)) : list (Z * car_row) :=
  match sort_by with
  | None => rows
  | Some c =>
      if default false descending
      then merge_sort (flip (column_le c)) rows
      else merge_sort (column_le c) rows
  end.

(** [LIMIT ?]: SQLite puts no bound on the rows when the limit is
    negative. *)
Definition sql_limit {A} (limit : Z) (rows : list A) : list A :=
  if limit <? 0 then rows else take (Z.to_nat limit) rows.

(** The rows of a query of [known_queries]. *)
Definition known_rows (order : option (column * bool)) (limit : Z)
    (t : gmap Z car_row) : list (Z * car_row) :=
  sql_limit limit (order_by (fst <$> order) (snd <$> order) (select_all t)).

Section queries.
Context {Q : OtherQueries}.

(** [conn.execute(final_query, (limit,)).fetchall()]: a limit outside 64
    bits is not bound. *)
Definition execute_query (query : string) (limit : Z) (t : gmap Z car_row)
  : outcome (list (Z * car_row)) :=
  match parse_query query with
  | Some order =>
      if negb (in_int64 limit) then Raise OverflowError
      else Ok (known_rows order limit t)
  | None => execute_other query limit t
  end.

(** The handler; [limit] and [sort_by] are [None] when the query string
    has none. *)
Definition read_car_models (db : database) (limit : option Z)
    (sort_by : option string) (descending : option bool)
  : outcome (list CarModelInDB) :=
  let limit := default 10 limit in
  rows ← execute_query (final_query sort_by descending) limit
            (car_models db);
  render_list (CarModelInDB_of_row <$> rows).
End queries.

(** The order of a list whose prices never increase: each car model costs
    at least as much as the ones after it. *)
Definition price_ge (a b : CarModelInDB) : Prop :=
  real_le (price b) (price a).
End car_models.

(** ** Registering users *)

(** The [users] database file: the rows in rowid order and the counter that
    [AUTOINCREMENT] keeps for the table. *)
Record users_database : Type := {
  user_rows : list user_row;
  user_sequence : Z
}.

Definition max_user_id (rows : list user_row) : Z :=
  foldr Z.max 0 (user_id <$> rows).

Section registration.
(** [pwd_context.hash] of passlib, as a function of the salt that the
    library draws at each call and of the password. *)
Variable get_password_hash : string → string → string.

(** [add_user_to_database(username, email, password)]: [full_name] is left
    [NULL] and [disabled] takes its default 0. *)
Definition add_user_to_database (db : users_database) (salt : string)
    (name mail password : string) : users_database :=
  let hashed_password := get_password_hash salt password in
  let new_id := Z.max (user_sequence db) (max_user_id (user_rows db)) + 1 in
  {| user_rows :=
       user_rows db
       ++ [ {| user_id := new_id;
               user_username := name;
               user_email := mail;
               user_full_name := None;
               user_hashed_password := hashed_password;
               user_disabled := false |} ];
     user_sequence := new_id |}.
End registration.

(** ** Sequences of requests *)

Section requests.
Context {R : SqlReal} {FS : FileSystem}.

(** The requests that write: the car model routes other than the two
    [GET]s. *)
Inductive request : Type :=
| PostCarModel (car_model : CarModel)
| PutCarModel (car_model_id : Z) (car_model : CarModel)
| DeleteCarModel (car_model_id : Z)
| PostImage (car_model_id : Z) (f : UploadFile)
| PutImage (car_model_id : Z) (f : UploadFile)
| DeleteImage (car_model_id : Z).

(** The upload directory and the database after a request is served. *)
Definition serve (st : filesystem * database) (rq : request)
  : filesystem * database :=
  match rq with
  | PostCarModel car_model => (st.1, (create_car_model st.2 car_model).1)
  | PutCarModel k car_model => (st.1, (update_car_model st.2 k car_model).1)
  | DeleteCarModel k => (st.1, (delete_car_model st.2 k).1)
  | PostImage k f => (upload_car_model_image st.1 st.2 k f).1
  | PutImage k f => (update_car_model_image st.1 st.2 k f).1
  | DeleteImage k => (st.1, (delete_car_model_image st.2 k).1)
  end.

(** Requests served one after the other. *)
Definition serve_all (st : filesystem * database) (rqs : list request)
  : filesystem * database :=
  foldl serve st rqs.
End requests.

Section seeding.
Context {R : SqlReal}.
(** [create_random_car_model()]: what the [i]-th call returns. *)
Variable create_random_car_model : nat → string * string * Z * real.

(** One turn of the loop of [insert_random_car_models] on the database so
    far: a draw and its [INSERT]. *)
Definition insert_draw (acc : outcome database) (i : nat)
  : outcome database :=
  db' ← acc;
  let '(manufacturer, model, year, price) := create_random_car_model i in
  inserted ← insert_car_model db'
               {| manufacturer := manufacturer; model := model;
                  year := year; price := price |};
  Ok inserted.1.

(** [insert_random_car_models(n)]: one [INSERT] per element of [range(n)],
    which is empty when [n] is not positive, and one [commit] after them:
    an [INSERT] that raises leaves the database as it was. *)
Definition insert_random_car_models (db : database) (n : Z)
  : database * outcome () :=
  match foldl insert_draw (Ok db) (seq 0 (Z.to_nat n)) with
  | Ok db' => (db', Ok ())
  | Raise e => (db, Raise e)
  end.
End seeding.

(** Every id in the table is at most the counter of [sqlite_sequence], as
    [AUTOINCREMENT] maintains it. *)
Definition ids_bounded {R : SqlReal} (db : database) : Prop :=
  map_Forall (λ k _, k ≤ sqlite_sequence db) (car_models db).

(** Every id in the table is a rowid that [AUTOINCREMENT] can have given:
    positive and within 64 bits. *)
Definition ids_in_range {R : SqlReal} (db : database) : Prop :=
  map_Forall (λ k _, 1 ≤ k ∧ in_int64 k = true) (car_models db).

(** The order of a column on the car models that the list returns. *)
Definition model_le {R : SqlReal} (c : column) : relation CarModelInDB :=
  λ a b,
    match c with
    | Id => car_model_id a ≤ car_model_id b
    | Manufacturer => String.leb (manufacturer a) (manufacturer b) = true
    | Model => String.leb (model a) (model b) = true
    | Year => year a ≤ year b
    | Price => real_le (price a) (price b)
    end.

(** The input that the driver binds and the table takes: a year within 64
    bits and a price that is not a NaN. *)
Definition bindable {R : SqlReal} (car_model : CarModel) : bool :=
  in_int64 (year car_model) && negb (real_is_nan (price car_model)).

(** ** Reference instances of the interfaces *)

(** Tokens that carry their payload, key and algorithm in the clear: the
    smallest signing layer with the law of [JWS]. *)
Definition clear_verify (tok : gmap string jvalue * string * string)
    (key : string) (algorithms : list string) : option (gmap string jvalue) :=
  if decide (tok.1.2 = key ∧ tok.2 ∈ algorithms) then Some tok.1.1 else None.

(** Decimal digits read as a number. *)
Fixpoint digits_value (acc : Z) (s : string) : option Z :=
  match s with
  | EmptyString => Some acc
  | String a s' =>
      let d := Z.of_N (Ascii.N_of_ascii a) - 48 in
      if (0 <=? d) && (d <=? 9) then digits_value (10 * acc + d) s' else None
  end.

Definition decimal_of_str (s : string) : option Z :=
  if str_truthy s then digits_value 0 s else None.

Program Definition clear_jws : JWS := {|
  token := gmap string jvalue * string * string;
  jws_sign claims key alg := (claims, key, alg);
  jws_verify := clear_verify;
  int_of_str := decimal_of_str
|}.
Next Obligation.
  intros claims key alg _. unfold clear_verify. simpl.
  rewrite decide_True; [done | split; [done | apply list_elem_of_singleton; done]].
Qed.

(** Integer prices: none is a NaN or an infinity, and each is read back as
    it was stored. *)
Program Definition Z_real : SqlReal := {|
  real := Z;
  real_le := Z.le;
  real_is_nan _ := false;
  real_is_finite _ := true;
  real_stored x := x;
  real_eq := eq
|}.
Solve Obligations with done.

(** Prices with the special values of a [float]: a NaN, the two
    infinities and the negative zero, next to the integers. *)
Inductive xreal : Type := XNaN | XNegInf | XNegZero | XFin (z : Z) | XPosInf.

Definition xreal_rank (x : xreal) : Z :=
  match x with
  | XNaN => 0
  | XNegInf => 1
  | XNegZero | XFin _ => 2
  | XPosInf => 3
  end.

Definition xreal_value (x : xreal) : Z :=
  match x with
  | XFin z => z
  | _ => 0
  end.

Definition xreal_le (x y : xreal) : Prop :=
  xreal_rank x < xreal_rank y
  ∨ (xreal_rank x = xreal_rank y ∧ xreal_value x ≤ xreal_value y).

Definition xreal_eq (x y : xreal) : Prop :=
  x ≠ XNaN ∧ y ≠ XNaN
  ∧ xreal_rank x = xreal_rank y ∧ xreal_value x = xreal_value y.

Definition xreal_stored (x : xreal) : xreal :=
  match x with
  | XNegZero => XFin 0
  | _ => x
  end.

Definition xreal_is_nan (x : xreal) : bool :=
  match x with
  | XNaN => true
  | _ => false
  end.

Definition xreal_is_finite (x : xreal) : bool :=
  match x with
  | XNegZero | XFin _ => true
  | _ => false
  end.

Program Definition x_real : SqlReal := {|
  real := xreal;
  real_le := xreal_le;
  real_is_nan := xreal_is_nan;
  real_is_finite := xreal_is_finite;
  real_stored := xreal_stored;
  real_eq := xreal_eq
|}.
Next Obligation. intros x y. unfold xreal_le. apply _. Defined.
Next Obligation.
  intros x y. unfold xreal_le.
  destruct x, y; simpl; lia.
Qed.
Next Obligation.
  intros x y z. unfold xreal_le.
  destruct x, y, z; simpl; lia.
Qed.
Next Obligation. by intros []. Qed.
Next Obligation. by intros []. Qed.
Next Obligation. intros [] Hx; unfold xreal_eq; simpl; done. Qed.

(** A flat directory: every write succeeds and replaces the file. *)
Definition flat_fs : FileSystem := {|
  filesystem := gmap string string;
  write_file fs path bytes := Some (<[path := bytes]> fs)
|}.

(** A database that refuses every query text it does not know with a
    syntax error. *)
Program Definition no_other_queries {R : SqlReal} : OtherQueries := {|
  execute_other _ _ _ := Raise OperationalError
|}.
Next Obligation. done. Qed.

(** A [sort_by] that ends the statement early: the text after [--] is a
    comment, so the one parameter is bound to [OFFSET] and the limit is
    the 100 of the pasted text.  A negative offset counts as none. *)
Definition pasted_sort_by : string := "id LIMIT 100 OFFSET ? --".

Definition pasted_rows {R : SqlReal} (offset : Z) (t : gmap Z car_row)
  : list (Z * car_row) :=
  take 100 (drop (Z.to_nat offset) (select_all t)).

(** A database that knows the two query texts of [pasted_sort_by] and
    refuses the others. *)
Definition execute_pasted {R : SqlReal} (query : string) (limit : Z)
    (t : gmap Z car_row) : outcome (list (Z * car_row)) :=
  if String.eqb query (final_query (Some pasted_sort_by) (Some false))
     || String.eqb query (final_query (Some pasted_sort_by) (Some true))
  then
    if negb (in_int64 limit) then Raise OverflowError
    else Ok (pasted_rows limit t)
  else Raise OperationalError.

Program Definition pasted_queries {R : SqlReal} : OtherQueries := {|
  execute_other := execute_pasted
|}.
Next Obligation.
  intros R query limit t rows. unfold execute_pasted.
  destruct (String.eqb _ _ || String.eqb _ _); [| done].
  destruct (negb (in_int64 limit)); [done |].
  intros [= <-].
  assert (Hsub : pasted_rows limit t `sublist_of` select_all t).
  { unfold pasted_rows. etrans; [apply sublist_take | apply sublist_drop]. }
  assert (Hperm : select_all t ≡ₚ map_to_list t)
    by apply merge_sort_Permutation.
  split.
  - apply (sublist_NoDup _ (select_all t).*1); [| by apply fmap_sublist].
    rewrite Hperm. apply NoDup_fst_map_to_list.
  - intros k r Hkr. apply elem_of_map_to_list. rewrite <- Hperm.
    by eapply elem_of_sublist.
Qed.

(** ** Sample data *)

Definition empty_database : @database Z_real :=
  {| car_models := ∅; sqlite_sequence := 0 |}.

Definition sample_cars : list (@CarModel Z_real) :=
  [ @Build_CarModel Z_real "Acme" "X1" 2020 19999;
    @Build_CarModel Z_real "Borg" "Cube" 1998 52000;
    @Build_CarModel Z_real "Acme" "X2" 2021 7500;
    @Build_CarModel Z_real "Cyberdyne" "T1" 1997 52000;
    @Build_CarModel Z_real "Dunder" "Mifflin" 2005 31000 ].

(** The database after five [POST /car_models/] on an empty one. *)
Definition sample_database : @database Z_real :=
  foldl (λ db car_model, (create_car_model db car_model).1)
        empty_database sample_cars.

Definition sample_users : list user_row :=
  [ {| user_id := 1; user_username := "admin";
       user_email := "example@example.com"; user_full_name := None;
       user_hashed_password := "$2b$12$hash"; user_disabled := false |} ].


Definition sample_upload : UploadFile :=
  {| filename := "x1.png"; file := "PNG" |}.

(** A password scheme for the examples: the password in the clear behind a
    fixed five-character prefix, whatever the salt. *)
Definition sample_hash (salt password : string) : string :=
  "salt$" +:+ password.

Definition sample_verify (password hashed : string) : bool :=
  String.eqb (String.substring 5 (String.length hashed - 5) hashed) password.

Definition sample_users_database : users_database :=
  {| user_rows := sample_users; user_sequence := 1 |}.

(** A user who has been disabled, with the password ["pw"]. *)
Definition disabled_users : list user_row :=
  [ {| user_id := 1; user_username := "bob"; user_email := "bob@example.com";
       user_full_name := None; user_hashed_password := "salt$pw";
       user_disabled := true |} ].

(** Draws like those of [create_random_car_model]: a year from 1990 to
    2021 and a price from 5000 to 70000. *)
Definition sample_draw (i : nat) : string * string * Z * @real Z_real :=
  ("Maker", "Model", 1990 + Z.of_nat i `mod` 32, 5000 + Z.of_nat i `mod` 65001).

(** The [users] database after ["carol"] registers with the password
    ["pw"], and her row. *)
Definition registered_users : users_database :=
  add_user_to_database sample_hash sample_users_database "s" "carol"
    "carol@example.com" "pw".

Definition carol_row : user_row :=
  {| user_id := 2; user_username := "carol";
     user_email := "carol@example.com"; user_full_name := None;
     user_hashed_password := "salt$pw"; user_disabled := false |}.

Definition bob_row : user_row :=
  {| user_id := 1; user_username := "bob"; user_email := "bob@example.com";
     user_full_name := None; user_hashed_password := "salt$pw";
     user_disabled := true |}.

(** Row 3 of the sample database. *)
Definition sample_row_3 : @car_row Z_real :=
  @Build_car_row Z_real "Acme" "X2" 2021 7500 None.

Definition sample_row_5 : @car_row Z_real :=
  @Build_car_row Z_real "Dunder" "Mifflin" 2005 31000 None.

(** A ttl of three million days and a clock reading in November 2026. *)
Definition three_million_days : Z := 3000000 * 86400000000.
Definition november_2026 : Z := 1793700000000000.

(** A token for ["admin"] whose ["exp"] is the string ["30"]. *)
Definition string_exp_token : @token clear_jws :=
  (<["exp" := JStr "30"]> {["sub" := JStr "admin"]}, SECRET_KEY, ALGORITHM).


Definition sample_car : @CarModel Z_real :=
  @Build_CarModel Z_real "Acme" "X3" 2022 8000.

(** An empty database over [x_real], and a car model priced at minus
    zero. *)
Definition x_empty_database : @database x_real :=
  {| car_models := ∅; sqlite_sequence := 0 |}.

Definition x_car (p : xreal) : @CarModel x_real :=
  @Build_CarModel x_real "Acme" "X1" 2020 p.

(** * Properties *)

(** ** Tokens *)

Lemma timegm_add_seconds (us s : Z) :
  timegm (us + s * 1000000) = timegm us + s.
Proof. unfold timegm. apply Z.div_add. lia. Qed.

Lemma timegm_mono (a b : Z) : a ≤ b → timegm a ≤ timegm b.
Proof. intros. unfold timegm. apply Z.div_le_mono; lia. Qed.

Lemma timegm_minutes (us m : Z) :
  timegm (us + timedelta_minutes m) = timegm us + m * 60.
Proof.
  unfold timedelta_minutes. rewrite <- timegm_add_seconds. f_equal.
Qed.

(** A sum that is a [datetime] is returned. *)
Lemma datetime_add_datetime (utcnow delta : Z) :
  is_datetime (utcnow + delta) = true →
  datetime_add utcnow delta = Ok (utcnow + delta).
Proof.
  intros Hsum. unfold datetime_add. rewrite Hsum. simpl.
  by rewrite andb_false_r.
Qed.

(** Up to a day can be added to every reading of the clock. *)
Lemma datetime_add_within_a_day (utcnow delta : Z) :
  0 ≤ delta ≤ 86400000000 →
  datetime_add utcnow delta = Ok (utcnow + delta).
Proof.
  intros Hdelta. unfold datetime_add.
  destruct (clock_reading utcnow) eqn:Hclock; [| done].
  assert (Hsum : is_datetime (utcnow + delta) = true); [| by rewrite Hsum].
  unfold clock_reading, is_datetime, DATETIME_MIN, DATETIME_MAX in *.
  apply andb_true_iff in Hclock as [Hlo%Z.leb_le Hhi%Z.leb_le].
  apply andb_true_iff. split; apply Z.leb_le; lia.
Qed.

(** Past the range of [datetime] the sum raises. *)
Lemma datetime_add_overflow (utcnow delta : Z) :
  clock_reading utcnow = true →
  is_datetime (utcnow + delta) = false →
  datetime_add utcnow delta = Raise OverflowError.
Proof. intros Hclock Hsum. unfold datetime_add. by rewrite Hclock, Hsum. Qed.

Lemma datetime_add_minutes (utcnow m : Z) :
  0 ≤ m ≤ 1440 →
  datetime_add utcnow (timedelta_minutes m)
  = Ok (utcnow + timedelta_minutes m).
Proof.
  intros Hm. apply datetime_add_within_a_day. unfold timedelta_minutes. lia.
Qed.

Lemma to_intdate_serializable (v : jvalue) :
  json_serializable v → to_intdate v = v.
Proof. by destruct v. Qed.

(** Encoding touches nothing but the [datetime] put under ["exp"]. *)
Lemma convert_time_claims_exp (data : gmap string jvalue) (expire : Z) :
  map_Forall (λ _ v, json_serializable v) data →
  convert_time_claims (<["exp" := JDatetime expire]> data)
  = <["exp" := JInt (timegm expire)]> data.
Proof.
  intros Hdata. unfold convert_time_claims.
  rewrite alter_insert_eq. simpl.
  rewrite !alter_insert_ne by done.
  assert (Hid : ∀ k, alter to_intdate k data = data).
  { intros k. apply alter_id. intros v Hv.
    apply to_intdate_serializable. by eapply Hdata. }
  by rewrite !Hid.
Qed.

Section token_properties.
Context {jws : JWS}.

Lemma create_access_token_signs (data : gmap string jvalue)
    (expires_delta : option Z) (utcnow expire : Z) :
  map_Forall (λ _ v, json_serializable v) data →
  datetime_add utcnow (effective_delta expires_delta) = Ok expire →
  let claims := <["exp" := JInt (timegm expire)]> data in
  create_access_token data expires_delta utcnow
    = Ok (jws_sign claims SECRET_KEY ALGORITHM)
  ∧ jws_verify (jws_sign claims SECRET_KEY ALGORITHM) SECRET_KEY [ALGORITHM]
    = Some claims.
Proof.
  intros Hdata Hexpire claims.
  assert (Hclaims : map_Forall (λ _ v, json_serializable v) claims).
  { apply map_Forall_insert_2; [exact I | done]. }
  split; [| by apply jws_verify_sign].
  unfold create_access_token, jwt_encode. rewrite Hexpire. simpl.
  rewrite convert_time_claims_exp by done.
  by rewrite decide_True.
Qed.

(** The payload of a token issued for a subject passes every check but,
    at a late second, that of ["exp"]. *)
Lemma validate_claims_issued (subject : string) (e now : Z) :
  validate_claims (<["exp" := JInt e]> {["sub" := JStr subject]}) now
  = negb (e <? now).
Proof.
  unfold validate_claims, validate_iat, validate_nbf, validate_exp,
    validate_absent, validate_sub, validate_jti, validate_str.
  rewrite lookup_insert_eq.
  repeat (rewrite lookup_insert_ne by done).
  repeat (rewrite lookup_singleton_ne by done).
  rewrite lookup_singleton_eq. simpl. by rewrite !andb_true_r.
Qed.


Lemma validate_claims_sub (claims : gmap string jvalue) (now : Z) :
  validate_claims claims now = true → validate_sub claims = true.
Proof.
  unfold validate_claims. intros H.
  repeat (apply andb_true_iff in H as [H ?]). done.
Qed.

Lemma validate_claims_exp (claims : gmap string jvalue) (now : Z) :
  validate_claims claims now = true → validate_exp claims now = true.
Proof.
  unfold validate_claims. intros H.
  repeat (apply andb_true_iff in H as [H ?]). done.
Qed.
End token_properties.

(** ** Logging in *)

Section login_properties.
Context {jws : JWS}.
Variable verify_password : string → string → bool.

(** A stored hash that does not verify is answered with the 401. *)
Lemma login_wrong_password (users : list user_row) (r : user_row)
    (name password : string) (utcnow : Z) :
  str_truthy name = true →
  select_user users name = Some r →
  verify_password password (user_hashed_password r) = false →
  login_for_access_token verify_password users name password utcnow
  = Raise incorrect_username_or_password.
Proof.
  intros Hname Hrow Hpw.
  unfold login_for_access_token, authenticate_user, get_user.
  rewrite Hname, Hrow. simpl. by rewrite Hpw.
Qed.

(** The empty username is answered with the 401 as well, whatever the
    table holds. *)
Lemma login_empty_username (users : list user_row) (password : string)
    (utcnow : Z) :
  login_for_access_token verify_password users "" password utcnow
  = Raise incorrect_username_or_password.
Proof. done. Qed.

(** A username without a row is not: [get_user] raises before
    [authenticate_user] can return [False]. *)
Lemma login_unknown_user (users : list user_row) (name password : string)
    (utcnow : Z) :
  str_truthy name = true →
  select_user users name = None →
  login_for_access_token verify_password users name password utcnow
  = Raise TypeError.
Proof.
  intros Hname Hrow.
  unfold login_for_access_token, authenticate_user, get_user.
  by rewrite Hname, Hrow.
Qed.

(** C1 (the code departs from it): logging in as ["alice"] when [users]
    has no such row is not answered with the 401 of a wrong password: the
    handler ends in a [TypeError], which the client sees as a 500. *)
Theorem C1_login_unknown_user_is_server_error (password : string)
    (utcnow : Z) :
  login_for_access_token verify_password [] "alice" password utcnow
  = Raise TypeError
  ∧ respond 200
      (login_for_access_token verify_password [] "alice" password utcnow)
    = ErrorResponse 500 "Internal Server Error" [].
Proof.
  assert (Hlogin : login_for_access_token verify_password [] "alice"
                     password utcnow = Raise TypeError).
  { by apply login_unknown_user. }
  by rewrite Hlogin.
Qed.
End login_properties.

Section token_claims.
Context {jws : JWS}.

(** C2 (as amended): without [expires_delta], and over a payload that
    JSON can carry, [create_access_token] issues a token whose ["exp"]
    is 15 minutes after the clock reading, in whole seconds; with the
    [ACCESS_TOKEN_EXPIRE_MINUTES] that the login handler passes it is 30
    minutes after. *)
Theorem C2_default_expiry_is_15_minutes (data : gmap string jvalue)
    (utcnow : Z) :
  map_Forall (λ _ v, json_serializable v) data →
  (∃ tok claims,
      create_access_token data None utcnow = Ok tok
      ∧ jws_verify tok SECRET_KEY [ALGORITHM] = Some claims
      ∧ claims !! "exp" = Some (JInt (timegm utcnow + 15 * 60)))
  ∧ (∃ tok claims,
      create_access_token data
        (Some (timedelta_minutes ACCESS_TOKEN_EXPIRE_MINUTES)) utcnow = Ok tok
      ∧ jws_verify tok SECRET_KEY [ALGORITHM] = Some claims
      ∧ claims !! "exp" = Some (JInt (timegm utcnow + 30 * 60))).
Proof.
  intros Hdata. split.
  - destruct (create_access_token_signs data None utcnow _ Hdata
                (datetime_add_minutes utcnow 15 ltac:(lia))) as [Hc Hv].
    eexists _, _. split; [exact Hc |]. split; [exact Hv |].
    rewrite lookup_insert_eq. by rewrite timegm_minutes.
  - destruct (create_access_token_signs data
                (Some (timedelta_minutes ACCESS_TOKEN_EXPIRE_MINUTES))
                utcnow _ Hdata
                (datetime_add_minutes utcnow 30 ltac:(lia))) as [Hc Hv].
    eexists _, _. split; [exact Hc |]. split; [exact Hv |].
    rewrite lookup_insert_eq. by rewrite timegm_minutes.
Qed.

(** What [decode_token_data] finds, at a later clock reading, in a token
    that [create_access_token] issued for a subject: the subject until the
    second of the expiry has passed, the 401 afterwards. *)
Lemma decode_issued_token (subject : string) (expires_delta : option Z)
    (issued utcnow expire : Z) :
  datetime_add issued (effective_delta expires_delta) = Ok expire →
  ∃ tok,
    create_access_token {["sub" := JStr subject]} expires_delta issued = Ok tok
    ∧ decode_token_data tok utcnow
      = if timegm expire <? timegm utcnow
        then Raise credential_exception
        else Ok subject.
Proof.
  intros Hexpire.
  destruct (create_access_token_signs {["sub" := JStr subject]}
              expires_delta issued expire) as [Hc Hv]; [| done |].
  { by apply map_Forall_singleton. }
  eexists. split; [exact Hc |].
  unfold decode_token_data, jwt_decode. rewrite Hv, validate_claims_issued.
  destruct (_ <? _); simpl; [done |].
  by rewrite lookup_insert_ne, lookup_singleton_eq.
Qed.

(** A positive ttl whose sum with the clock is a [datetime]. *)
Lemma expiry_positive_ttl (ttl utcnow : Z) :
  0 < ttl →
  is_datetime (utcnow + ttl) = true →
  datetime_add utcnow (effective_delta (Some ttl)) = Ok (utcnow + ttl)
  ∧ (timegm (utcnow + ttl) <? timegm utcnow) = false.
Proof.
  intros Httl Hsum. simpl.
  destruct (Z.eqb_spec ttl 0) as [-> | _]; [lia |].
  split; [by apply datetime_add_datetime |].
  apply Z.ltb_ge, timegm_mono. lia.
Qed.

(** C3 (as amended): a token issued for a subject with a positive [ttl]
    that does not take the clock out of the range of [datetime], decoded
    at the same clock reading, gives the subject back. *)
Theorem C3_issue_then_verify (subject : string) (ttl utcnow : Z) :
  0 < ttl →
  is_datetime (utcnow + ttl) = true →
  ∃ tok,
    create_access_token {["sub" := JStr subject]} (Some ttl) utcnow = Ok tok
    ∧ decode_token_data tok utcnow = Ok subject.
Proof.
  intros Httl Hsum.
  destruct (expiry_positive_ttl ttl utcnow Httl Hsum) as [Hadd Hnow].
  destruct (decode_issued_token subject (Some ttl) utcnow utcnow _ Hadd)
    as (tok & Hc & Hd).
  exists tok. split; [exact Hc |]. by rewrite Hd, Hnow.
Qed.

Lemma select_user_username (users : list user_row) (name : string)
    (r : user_row) :
  select_user users name = Some r → user_username r = name.
Proof.
  unfold select_user. intros [_ Heq]%find_some. by apply String.eqb_eq.
Qed.

(** With a row for the subject in [users], and a subject that is not
    empty, [get_current_user] returns that user. *)
Lemma get_current_user_of_issued_token (users : list user_row) (r : user_row)
    (subject : string) (ttl utcnow : Z) :
  0 < ttl →
  is_datetime (utcnow + ttl) = true →
  str_truthy subject = true →
  select_user users subject = Some r →
  ∃ tok,
    create_access_token {["sub" := JStr subject]} (Some ttl) utcnow = Ok tok
    ∧ get_current_user users tok utcnow = Ok (UserInDB_of_row r)
    ∧ username (UserInDB_of_row r) = subject.
Proof.
  intros Httl Hsum Hname Hrow.
  destruct (expiry_positive_ttl ttl utcnow Httl Hsum) as [Hadd Hnow].
  destruct (decode_issued_token subject (Some ttl) utcnow utcnow _ Hadd)
    as (tok & Hc & Hd).
  exists tok. split; [exact Hc |].
  unfold get_current_user, get_user. rewrite Hd, Hnow. simpl.
  rewrite Hname, Hrow. simpl.
  split; [reflexivity | by eapply select_user_username].
Qed.

End token_claims.

(** C2 (as stated, refuted): the token issued for ["alice"] at clock
    reading 0 without [expires_delta] expires at second 900, not at second
    1800. *)
Lemma C2_default_expiry_is_not_30_minutes :
  ∃ tok claims,
    create_access_token (jws := clear_jws) {["sub" := JStr "alice"]} None 0
    = Ok tok
    ∧ jws_verify tok SECRET_KEY [ALGORITHM] = Some claims
    ∧ claims !! "exp" = Some (JInt 900)
    ∧ JInt 900 ≠ JInt (timegm (0 + timedelta_minutes 30)).
Proof.
  destruct (create_access_token_signs (jws := clear_jws)
              {["sub" := JStr "alice"]} None 0 900000000) as [Hc Hv].
  { by apply map_Forall_singleton. }
  { reflexivity. }
  eexists _, _. split; [exact Hc |]. split; [exact Hv |].
  split; [by rewrite lookup_insert_eq | by vm_compute].
Qed.

(** C3 (as stated, refuted): in November 2026 a ttl of three million
    days passes the year 9999; the sum raises and no token is issued. *)
Lemma C3_ttl_past_year_9999 :
  0 < three_million_days
  ∧ create_access_token (jws := clear_jws) {["sub" := JStr "admin"]}
      (Some three_million_days) november_2026
    = Raise OverflowError.
Proof. split; [done | reflexivity]. Qed.

(** ** The [car_models] table *)

Lemma foldr_max_ge (l : list Z) (k : Z) : k ∈ l → k ≤ foldr Z.max 0 l.
Proof.
  induction l as [| x l IH]; simpl.
  - by intros ?%elem_of_nil.
  - intros [-> | Hk%IH]%elem_of_cons; lia.
Qed.

Section table_properties.
Context {R : SqlReal}.
Implicit Types (db : database) (t : gmap Z car_row) (r : car_row).

Lemma database_eta db :
  {| car_models := car_models db; sqlite_sequence := sqlite_sequence db |}
  = db.
Proof. by destruct db. Qed.

Lemma max_rowid_ge t k r : t !! k = Some r → k ≤ max_rowid t.
Proof.
  intros Hk. apply foldr_max_ge, list_elem_of_fmap.
  exists (k, r). split; [done |]. by apply elem_of_map_to_list.
Qed.

(** The id of an inserted row is above every id in the table and above
    the counter. *)
Lemma next_rowid_fresh db :
  car_models db !! next_rowid db = None
  ∧ sqlite_sequence db < next_rowid db.
Proof.
  unfold next_rowid. split; [| lia].
  destruct (car_models db !! _) as [r |] eqn:Hk; [| done].
  apply max_rowid_ge in Hk. lia.
Qed.

Lemma rowcount_None t k : t !! k = None → rowcount t k = 0.
Proof. unfold rowcount. by intros ->. Qed.

Lemma rowcount_Some t k r : t !! k = Some r → rowcount t k = 1.
Proof. unfold rowcount. by intros ->. Qed.

(** An [UPDATE] whose [WHERE] matches no row leaves the database as it
    was. *)
Lemma update_image_path_None db k p :
  car_models db !! k = None → update_image_path db k p = db.
Proof.
  intros Hk. unfold update_image_path.
  rewrite alter_id; [apply database_eta |]. intros r. by rewrite Hk.
Qed.


(** The [INSERT] of an input that binds, into a table with an id left. *)
Lemma insert_car_model_Ok db (car_model : CarModel) :
  bindable car_model = true →
  in_int64 (next_rowid db) = true →
  insert_car_model db car_model
  = Ok ({| car_models :=
             <[next_rowid db :=
                 {| row_manufacturer := manufacturer car_model;
                    row_model := model car_model;
                    row_year := year car_model;
                    row_price := real_stored (price car_model);
                    row_image_path := None |}]> (car_models db);
           sqlite_sequence := next_rowid db |}, next_rowid db).
Proof.
  intros [Hy Hp%negb_true_iff]%andb_true_iff Hid.
  unfold insert_car_model. by rewrite Hy, Hp, Hid.
Qed.

(** An [INSERT] that does not raise was one of those. *)
Lemma insert_car_model_inv db (car_model : CarModel) db' k :
  insert_car_model db car_model = Ok (db', k) →
  bindable car_model = true ∧ in_int64 (next_rowid db) = true.
Proof.
  unfold insert_car_model, bindable.
  destruct (in_int64 (year car_model)); [| done].
  destruct (real_is_nan (price car_model)); [done |].
  by destruct (in_int64 (next_rowid db)).
Qed.

(** An [INSERT] that raises leaves the database as it was. *)
Lemma create_car_model_raise db (car_model : CarModel) e :
  insert_car_model db car_model = Raise e →
  create_car_model db car_model = (db, Raise e).
Proof. unfold create_car_model. by intros ->. Qed.



(** C7 (as amended): for an id within 64 bits, deleting an id that has
    no row is answered with the 404; deleting an id that has one is
    answered with the 202, and reading that id afterwards with the 404. *)
Theorem C7_delete_then_read db (k : Z) :
  in_int64 k = true →
  (car_models db !! k = None →
     respond HTTP_202_ACCEPTED (delete_car_model db k).2
     = ErrorResponse 404 "CarModel not found" [])
  ∧ (is_Some (car_models db !! k) →
     respond HTTP_202_ACCEPTED (delete_car_model db k).2
     = Response 202 {| ok := true |}
     ∧ respond 200 (read_car_model (delete_car_model db k).1 k)
       = ErrorResponse 404
           ("CarModel with id: '" +:+ pretty k +:+ "' was not found") []).
Proof.
  intros Hid. unfold delete_car_model. rewrite Hid. simpl. split.
  - intros Hk. by rewrite (rowcount_None _ _ Hk).
  - intros [r Hk]. rewrite (rowcount_Some _ _ _ Hk). simpl.
    split; [done |]. unfold read_car_model. simpl.
    by rewrite Hid, lookup_delete_eq.
Qed.


(** The database after an update that found its row and did not break
    [NOT NULL]. *)
Lemma update_car_model_db db (k : Z) (car_model : CarModel) resp :
  (update_car_model db k car_model).2 = Ok resp →
  resp = {| base := car_model; car_model_id := k |}
  ∧ (update_car_model db k car_model).1
    = {| car_models := alter (set_car_model car_model) k (car_models db);
         sqlite_sequence := sqlite_sequence db |}.
Proof.
  unfold update_car_model, render.
  destruct (negb _); [done |].
  destruct (_ && _); [done |].
  destruct (_ =? 0); [done |]. simpl.
  destruct (real_is_finite _); [| done]. by intros [= <-].
Qed.

(** C10: a successful update of an id that has a row puts the four given
    fields in that row and keeps its [image_path]; every other row, and
    the id counter, are as before. *)
Theorem C10_update_frame db (k : Z) r (car_model : CarModel)
    (resp : CarModelInDB) :
  car_models db !! k = Some r →
  (update_car_model db k car_model).2 = Ok resp →
  let db' := (update_car_model db k car_model).1 in
  resp = {| base := car_model; car_model_id := k |}
  ∧ car_models db' !! k
    = Some {| row_manufacturer := manufacturer car_model;
              row_model := model car_model;
              row_year := year car_model;
              row_price := real_stored (price car_model);
              row_image_path := row_image_path r |}
  ∧ (∀ j, j ≠ k → car_models db' !! j = car_models db !! j)
  ∧ sqlite_sequence db' = sqlite_sequence db.
Proof.
  intros Hk Hok db'. subst db'.
  destruct (update_car_model_db _ _ _ _ Hok) as [-> ->]. simpl.
  split; [done |]. split; [by rewrite lookup_alter_eq, Hk |].
  split; [| done]. intros j Hj. by rewrite lookup_alter_ne.
Qed.
End table_properties.

(** ** Uploaded images *)

Section image_properties.
Context {R : SqlReal} {FS : FileSystem}.

(** C9 (as amended): when the id is within 64 bits and has no row and
    the file is written, the [PUT] handler ends in the 404 and the [POST]
    handler in its 201; both leave the file on disk and the table as it
    was, so after the [POST] no row records the path unless one did
    before. *)
Theorem C9_image_of_missing_id (fs fs' : filesystem) (db : database)
    (k : Z) (f : UploadFile) :
  let file_location := IMAGE_DIR +:+ "/" +:+ filename f in
  in_int64 k = true →
  car_models db !! k = None →
  write_file fs file_location (file f) = Some fs' →
  update_car_model_image fs db k f
  = (fs', db, Raise (HTTPException 404 "CarModel not found" []))
  ∧ upload_car_model_image fs db k f
    = (fs', db,
       Ok {| info := "image of Car Model id:'" +:+ pretty k
                       +:+ "' was set to '" +:+ filename f +:+ "'" |})
  ∧ respond HTTP_201_CREATED (upload_car_model_image fs db k f).2
    = Response 201
        {| info := "image of Car Model id:'" +:+ pretty k
                     +:+ "' was set to '" +:+ filename f +:+ "'" |}
  ∧ ((∀ j r, car_models db !! j = Some r →
             row_image_path r ≠ Some file_location) →
     ∀ j r, car_models (upload_car_model_image fs db k f).1.2 !! j = Some r →
            row_image_path r ≠ Some file_location).
Proof.
  intros file_location Hid Hk Hw.
  unfold update_car_model_image, upload_car_model_image.
  fold file_location.
  rewrite Hw, Hid, (rowcount_None _ _ Hk), (update_image_path_None _ _ _ Hk).
  simpl. repeat split. intros Hdb j r. apply Hdb.
Qed.
End image_properties.

(** ** Listing *)

Lemma StronglySorted_take {A} (rel : relation A) (n : nat) (l : list A) :
  StronglySorted rel l → StronglySorted rel (take n l).
Proof.
  intros Hl. revert n. induction Hl as [| x l Hl IH Hx]; intros [| n]; simpl;
    try constructor; [apply IH |].
  by apply Forall_take.
Qed.

(** The text of a query sorted by one of the five columns, or by none, is
    known. *)
Lemma parse_query_known (sort_by : option column) (descending : option bool) :
  parse_query (final_query (column_name <$> sort_by) descending)
  = Some ((λ c, (c, default false descending)) <$> sort_by).
Proof.
  destruct sort_by as [[] |], descending as [[] |]; reflexivity.
Qed.

Section listing_properties.
Context {R : SqlReal}.

Global Instance column_le_total c : Total (column_le c).
Proof.
  intros a b. destruct c; simpl.
  - lia.
  - unfold String.leb.
    rewrite (String.compare_antisym (row_manufacturer a.2)).
    destruct (String.compare _ _); simpl; auto.
  - unfold String.leb.
    rewrite (String.compare_antisym (row_model a.2)).
    destruct (String.compare _ _); simpl; auto.
  - lia.
  - apply real_le_total.
Qed.

Lemma select_all_length (t : gmap Z car_row) :
  length (select_all t) = size t.
Proof.
  unfold select_all.
  by rewrite merge_sort_Permutation, length_map_to_list.
Qed.

Lemma order_by_length sort_by descending (rows : list (Z * car_row)) :
  length (order_by sort_by descending rows) = length rows.
Proof.
  unfold order_by. destruct sort_by as [c |]; [| done].
  destruct (default false descending); by rewrite merge_sort_Permutation.
Qed.

Lemma order_by_Permutation sort_by descending (rows : list (Z * car_row)) :
  order_by sort_by descending rows ≡ₚ rows.
Proof.
  unfold order_by. destruct sort_by as [c |]; [| done].
  destruct (default false descending); apply merge_sort_Permutation.
Qed.

Lemma select_all_Permutation (t : gmap Z car_row) :
  select_all t ≡ₚ map_to_list t.
Proof. apply merge_sort_Permutation. Qed.

Lemma sql_limit_sublist {A} (n : Z) (l : list A) :
  sql_limit n l `sublist_of` l.
Proof. unfold sql_limit. destruct (n <? 0); [done | apply sublist_take]. Qed.

Lemma sql_limit_all {A} (n : Z) (l : list A) :
  n < 0 ∨ Z.of_nat (length l) ≤ n → sql_limit n l = l.
Proof.
  intros Hn. unfold sql_limit. destruct (Z.ltb_spec n 0); [done |].
  apply take_ge. lia.
Qed.

(** The rows of a known query: some of the rows of the table, each at
    most once; as many as the limit allows. *)
Lemma known_rows_sublist order (n : Z) (t : gmap Z car_row) :
  ∃ rows', known_rows order n t `sublist_of` rows' ∧ rows' ≡ₚ map_to_list t.
Proof.
  eexists. split; [apply sql_limit_sublist |].
  by rewrite order_by_Permutation, select_all_Permutation.
Qed.

Lemma known_rows_elem_of order (n : Z) (t : gmap Z car_row) k r :
  (k, r) ∈ known_rows order n t → t !! k = Some r.
Proof.
  destruct (known_rows_sublist order n t) as (rows' & Hsub & Hperm).
  intros Hin. apply elem_of_map_to_list. rewrite <- Hperm.
  by eapply elem_of_sublist.
Qed.

Lemma known_rows_length order (n : Z) (t : gmap Z car_row) :
  0 ≤ n → length (known_rows order n t) = Nat.min (Z.to_nat n) (size t).
Proof.
  intros Hn. unfold known_rows, sql_limit.
  apply Z.ltb_ge in Hn. rewrite Hn.
  by rewrite length_take, order_by_length, select_all_length.
Qed.

Lemma known_rows_all order (n : Z) (t : gmap Z car_row) :
  n < 0 ∨ Z.of_nat (size t) ≤ n → known_rows order n t ≡ₚ map_to_list t.
Proof.
  intros Hn. unfold known_rows. rewrite sql_limit_all.
  - by rewrite order_by_Permutation, select_all_Permutation.
  - by rewrite order_by_length, select_all_length.
Qed.

(** A body whose prices are all finite is rendered. *)
Lemma render_list_Ok (body : list CarModelInDB) :
  Forall (λ x : CarModelInDB, real_is_finite (price x) = true) body →
  render_list body = Ok body.
Proof.
  intros Hbody. unfold render_list.
  assert (Hall : forallb (λ x : CarModelInDB, real_is_finite (price x)) body
                 = true); [| by rewrite Hall].
  induction Hbody as [| x body Hx _ IH]; simpl; [done |].
  by rewrite Hx, IH.
Qed.

Lemma render_list_inv (body body' : list CarModelInDB) :
  render_list body = Ok body' → body' = body.
Proof. unfold render_list. destruct (forallb _ _); congruence. Qed.

Lemma finite_rows (t : gmap Z car_row) (rows : list (Z * car_row)) :
  map_Forall (λ _ r, real_is_finite (row_price r) = true) t →
  (∀ k r, (k, r) ∈ rows → t !! k = Some r) →
  Forall (λ x : CarModelInDB, real_is_finite (price x) = true)
    (CarModelInDB_of_row <$> rows).
Proof.
  intros Ht Hrows. apply Forall_fmap, Forall_forall.
  intros [k r] Hkr. simpl. by eapply Ht, Hrows.
Qed.

Section known_queries.
Context {Q : OtherQueries}.

(** The handler on a known query: the bound limit, the rows, the
    rendering. *)
Lemma read_car_models_known (db : database) limit (sort_by : option column)
    descending :
  read_car_models db limit (column_name <$> sort_by) descending
  = if in_int64 (default 10 limit)
    then render_list
           (CarModelInDB_of_row
              <$> known_rows ((λ c, (c, default false descending)) <$> sort_by)
                    (default 10 limit) (car_models db))
    else Raise OverflowError.
Proof.
  unfold read_car_models, execute_query. rewrite parse_query_known.
  by destruct (in_int64 _).
Qed.

(** With a limit that binds and finite prices in the table, the list of a
    known query is returned. *)
Lemma read_car_models_Ok (db : database) limit (sort_by : option column)
    descending :
  in_int64 (default 10 limit) = true →
  map_Forall (λ _ r, real_is_finite (row_price r) = true) (car_models db) →
  read_car_models db limit (column_name <$> sort_by) descending
  = Ok (CarModelInDB_of_row
          <$> known_rows ((λ c, (c, default false descending)) <$> sort_by)
                (default 10 limit) (car_models db)).
Proof.
  intros Hn Hfin. rewrite read_car_models_known, Hn.
  apply render_list_Ok, (finite_rows (car_models db)); [done |].
  intros k r. apply known_rows_elem_of.
Qed.

(** A list that a known query returned is the list of its rows. *)
Lemma read_car_models_inv (db : database) limit (sort_by : option column)
    descending (l : list CarModelInDB) :
  read_car_models db limit (column_name <$> sort_by) descending = Ok l →
  l = CarModelInDB_of_row
        <$> known_rows ((λ c, (c, default false descending)) <$> sort_by)
              (default 10 limit) (car_models db).
Proof.
  rewrite read_car_models_known. destruct (in_int64 _); [| done].
  apply render_list_inv.
Qed.

(** The rows sorted by price, descending, never increase in price. *)
Lemma known_rows_price_desc (n : Z) (t : gmap Z car_row) :
  StronglySorted price_ge
    (CarModelInDB_of_row <$> known_rows (Some (Price, true)) n t).
Proof.
  unfold known_rows, order_by. simpl.
  apply (StronglySorted_fmap _ (flip (column_le Price))); [done |].
  assert (Hs : StronglySorted (flip (column_le Price))
                 (merge_sort (flip (column_le Price)) (select_all t))).
  { apply StronglySorted_merge_sort.
    - intros a b c Hab Hbc. unfold flip, column_le in *. simpl in *.
      by etrans.
    - intros a b. unfold flip. apply (column_le_total Price). }
  unfold sql_limit. destruct (_ <? 0); [done |].
  by apply StronglySorted_take.
Qed.

(** C8 (as amended): under a limit between 0 and the largest 64-bit
    integer (10 when the query has none), with [sort_by] absent or one of
    the five columns and no infinite price in the table, the list has as
    many rows as the table up to the limit, hence at most the limit and two
    for a limit of 2 over five rows; sorted by price, descending, its
    prices never increase. *)
Theorem C8_limit_and_price_order (db : database) limit
    (sort_by : option column) descending :
  let n := default 10 limit in
  0 ≤ n →
  in_int64 n = true →
  map_Forall (λ _ r, real_is_finite (row_price r) = true) (car_models db) →
  (∃ l,
      read_car_models db limit (column_name <$> sort_by) descending = Ok l
      ∧ length l = Nat.min (Z.to_nat n) (size (car_models db))
      ∧ Z.of_nat (length l) ≤ n
      ∧ (limit = Some 2 → size (car_models db) = 5%nat → length l = 2%nat))
  ∧ (∃ l,
      read_car_models db limit (Some "price") (Some true) = Ok l
      ∧ StronglySorted price_ge l).
Proof.
  intros n Hn Hbind Hfin. split.
  - eexists. split; [by apply read_car_models_Ok |].
    rewrite length_fmap, known_rows_length by done. fold n.
    split; [done |]. split; [lia |].
    intros -> ->. done.
  - eexists. split; [by apply (read_car_models_Ok db limit (Some Price)) |].
    apply known_rows_price_desc.
Qed.
End known_queries.
End listing_properties.

(** ** The properties on the sample data *)

Example sample_database_size : size (car_models sample_database) = 5%nat.
Proof. by vm_compute. Qed.

Example sample_price_descending :
  ∃ l,
    read_car_models (Q := no_other_queries) sample_database None
      (Some "price") (Some true) = Ok l
    ∧ car_model_id <$> l = [2; 4; 5; 1; 3].
Proof. eexists. split; [by vm_compute | by vm_compute]. Qed.

Example sample_limit_two :
  ∃ l,
    read_car_models (Q := no_other_queries) sample_database (Some 2) None None
    = Ok l
    ∧ car_model_id <$> l = [1; 2].
Proof. eexists. split; [by vm_compute | by vm_compute]. Qed.

(** A limit that is not bound, and a [sort_by] that is none of the five
    columns and reaches the database as it is. *)
Example sample_limit_2_63 :
  read_car_models (Q := no_other_queries) sample_database
    (Some 9223372036854775808) None None
  = Raise OverflowError.
Proof. by vm_compute. Qed.

Example sample_pasted_sort_by :
  final_query (Some "id LIMIT 100 OFFSET ? --") None
  = "SELECT * FROM car_models ORDER BY id LIMIT 100 OFFSET ? -- ASC LIMIT ?"
  ∧ parse_query (final_query (Some "id LIMIT 100 OFFSET ? --") None) = None.
Proof. split; by vm_compute. Qed.

(** The special prices: a NaN is not inserted, an infinity is inserted
    and answered with a 500, a negative zero is read back as zero. *)
Example x_create_nan :
  create_car_model x_empty_database (x_car XNaN)
  = (x_empty_database, Raise IntegrityError).
Proof. reflexivity. Qed.

Example x_create_infinity :
  (create_car_model x_empty_database (x_car XPosInf)).2 = Raise ValueError
  ∧ is_Some (car_models (create_car_model x_empty_database (x_car XPosInf)).1
               !! 1).
Proof. split; [reflexivity | by eexists]. Qed.

Example x_create_negative_zero :
  ∃ created got,
    (create_car_model x_empty_database (x_car XNegZero)).2 = Ok created
    ∧ price created = XNegZero
    ∧ read_car_model (create_car_model x_empty_database (x_car XNegZero)).1 1
      = Ok got
    ∧ price got = XFin 0.
Proof. eexists _, _. repeat split. Qed.

(** C8 (as stated, refuted): with [limit=-1] the five rows of the sample
    database are all returned, which is more than the limit. *)
Lemma C8_negative_limit_returns_all_rows :
  ∃ l,
    read_car_models (Q := no_other_queries) sample_database (Some (-1)) None
      None = Ok l
    ∧ length l = 5%nat
    ∧ ¬ Z.of_nat (length l) ≤ -1.
Proof.
  eexists. split; [by vm_compute |]. split; [by vm_compute |].
  vm_compute. intros H. by apply H.
Qed.



(** C7 (as stated, refuted): no row has the id 2^63, and deleting it is
    answered with a 500, not with the 404. *)
Lemma C7_id_outside_64_bits :
  car_models sample_database !! 9223372036854775808 = None
  ∧ respond HTTP_202_ACCEPTED
      (delete_car_model sample_database 9223372036854775808).2
    = ErrorResponse 500 "Internal Server Error" [].
Proof. split; reflexivity. Qed.

(** C9 (as stated, refuted): for the id 2^63, which has no row, both
    upload handlers write the file and are then answered with a 500. *)
Lemma C9_id_outside_64_bits :
  car_models sample_database !! 9223372036854775808 = None
  ∧ update_car_model_image (FS := flat_fs) ∅ sample_database
      9223372036854775808 sample_upload
    = ({["uploaded_images/x1.png" := "PNG"]}, sample_database,
       Raise OverflowError)
  ∧ respond HTTP_201_CREATED
      (upload_car_model_image (FS := flat_fs) ∅ sample_database
         9223372036854775808 sample_upload).2
    = ErrorResponse 500 "Internal Server Error" [].
Proof. repeat split. Qed.

(** C2 on a token for ["admin"] issued at second 5. *)
Lemma C2_default_expiry_witness :
  (∃ tok claims,
      create_access_token (jws := clear_jws) {["sub" := JStr "admin"]} None
        5000000 = Ok tok
      ∧ jws_verify tok SECRET_KEY [ALGORITHM] = Some claims
      ∧ claims !! "exp" = Some (JInt (timegm 5000000 + 15 * 60)))
  ∧ (∃ tok claims,
      create_access_token (jws := clear_jws) {["sub" := JStr "admin"]}
        (Some (timedelta_minutes ACCESS_TOKEN_EXPIRE_MINUTES)) 5000000 = Ok tok
      ∧ jws_verify tok SECRET_KEY [ALGORITHM] = Some claims
      ∧ claims !! "exp" = Some (JInt (timegm 5000000 + 30 * 60))).
Proof.
  apply (C2_default_expiry_is_15_minutes (jws := clear_jws)
           {["sub" := JStr "admin"]} 5000000).
  apply map_Forall_singleton. simpl. exact I.
Defined.

(** C3 on a token for ["admin"] that lives one microsecond. *)
Lemma C3_issue_then_verify_witness :
  0 < 1
  ∧ ∃ tok,
      create_access_token (jws := clear_jws) {["sub" := JStr "admin"]} (Some 1)
        5000000 = Ok tok
      ∧ decode_token_data tok 5000000 = Ok "admin".
Proof.
  split; [lia |].
  apply (C3_issue_then_verify (jws := clear_jws) "admin" 1 5000000);
    [lia | reflexivity].
Defined.




(** C7 on the sample database: row 9 is missing, row 3 is there. *)
Lemma C7_delete_then_read_witness :
  respond HTTP_202_ACCEPTED (delete_car_model sample_database 9).2
  = ErrorResponse 404 "CarModel not found" []
  ∧ respond HTTP_202_ACCEPTED (delete_car_model sample_database 3).2
    = Response 202 {| ok := true |}
  ∧ respond 200 (read_car_model (delete_car_model sample_database 3).1 3)
    = ErrorResponse 404 "CarModel with id: '3' was not found" [].
Proof.
  split.
  - apply (C7_delete_then_read (R := Z_real) sample_database 9);
      reflexivity.
  - apply (C7_delete_then_read (R := Z_real) sample_database 3);
      [reflexivity |].
    eexists. reflexivity.
Defined.

(** C8 on the five rows of the sample database with [limit=2]. *)
Lemma C8_limit_and_price_order_witness :
  0 ≤ 2
  ∧ (∃ l,
        read_car_models (Q := no_other_queries) sample_database (Some 2) None
          None = Ok l
        ∧ length l = 2%nat)
  ∧ (∃ l,
        read_car_models (Q := no_other_queries) sample_database (Some 2)
          (Some "price") (Some true) = Ok l
        ∧ StronglySorted price_ge l).
Proof.
  split; [lia |].
  destruct (C8_limit_and_price_order (R := Z_real) (Q := no_other_queries)
              sample_database (Some 2) None None)
    as ((l & Hl & _ & _ & Htwo) & Hsorted);
    [simpl; lia | reflexivity | intros k r _; reflexivity |].
  split; [| exact Hsorted].
  exists l. split; [exact Hl | apply Htwo; reflexivity].
Defined.

(** C9 on the sample database and an empty upload directory. *)
Lemma C9_image_of_missing_id_witness :
  car_models sample_database !! 9 = None
  ∧ update_car_model_image (FS := flat_fs) ∅ sample_database 9 sample_upload
    = ({["uploaded_images/x1.png" := "PNG"]}, sample_database,
       Raise (HTTPException 404 "CarModel not found" []))
  ∧ respond HTTP_201_CREATED
      (upload_car_model_image (FS := flat_fs) ∅ sample_database 9
         sample_upload).2
    = Response 201
        {| info := "image of Car Model id:'9' was set to 'x1.png'" |}.
Proof.
  split; [reflexivity |].
  destruct (C9_image_of_missing_id (R := Z_real) (FS := flat_fs) ∅
              {["uploaded_images/x1.png" := "PNG"]} sample_database 9
              sample_upload) as (Hput & _ & Hpost & _);
    [reflexivity | reflexivity | reflexivity |].
  split; [exact Hput | exact Hpost].
Defined.

(** C10 on row 3 of the sample database. *)
Lemma C10_update_frame_witness :
  let db' := (update_car_model sample_database 3 sample_car).1 in
  (update_car_model sample_database 3 sample_car).2
  = Ok {| base := sample_car; car_model_id := 3 |}
  ∧ car_models db' !! 3
    = Some {| row_manufacturer := "Acme"; row_model := "X3"; row_year := 2022;
              row_price := 8000 : @real Z_real; row_image_path := None |}
  ∧ (∀ j, j ≠ 3 → car_models db' !! j = car_models sample_database !! j).
Proof.
  intros db'.
  assert (Hok : (update_car_model sample_database 3 sample_car).2
                = Ok {| base := sample_car; car_model_id := 3 |})
    by reflexivity.
  destruct (C10_update_frame (R := Z_real) sample_database 3 sample_row_3
              sample_car _ eq_refl Hok) as (_ & Hrow & Hothers & _).
  split; [exact Hok |]. split; [exact Hrow | exact Hothers].
Defined.

(** * Further properties *)

(** ** Sessions *)

Section session_properties.
Context {jws : JWS}.
Variable verify_password : string → string → bool.

(** With a row for a username that is not empty, [authenticate_user]
    depends on the stored hash alone. *)
Lemma authenticate_user_row (users : list user_row) (r : user_row)
    (name password : string) :
  str_truthy name = true →
  select_user users name = Some r →
  authenticate_user verify_password users name password
  = Ok (if verify_password password (user_hashed_password r)
        then Some (UserInDB_of_row r) else None).
Proof.
  intros Hname Hrow. unfold authenticate_user, get_user.
  rewrite Hname, Hrow. simpl. by destruct (verify_password _ _).
Qed.

(** The 30 minutes of the configuration can be added to every reading of
    the clock. *)
Lemma login_expiry (issued : Z) :
  datetime_add issued
    (effective_delta (Some (timedelta_minutes ACCESS_TOKEN_EXPIRE_MINUTES)))
  = Ok (issued + timedelta_minutes 30)
  ∧ timegm (issued + timedelta_minutes 30) = timegm issued + 30 * 60.
Proof.
  split; [| apply timegm_minutes].
  change (effective_delta _) with (timedelta_minutes 30).
  apply datetime_add_minutes. lia.
Qed.

(** A successful login returns the token that [create_access_token] issues
    for the username with the 30 minutes of the configuration; what that
    token decodes to depends on the second it is presented at. *)
Lemma login_issues_token (users : list user_row) (r : user_row)
    (name password : string) (issued utcnow : Z) :
  str_truthy name = true →
  select_user users name = Some r →
  verify_password password (user_hashed_password r) = true →
  ∃ tok,
    login_for_access_token verify_password users name password issued
    = Ok {| access_token := tok; token_type := "bearer" |}
    ∧ decode_token_data tok utcnow
      = if timegm issued + 30 * 60 <? timegm utcnow
        then Raise credential_exception
        else Ok name.
Proof.
  intros Hname Hrow Hpw.
  destruct (login_expiry issued) as [Hadd Hsec].
  destruct (decode_issued_token name
              (Some (timedelta_minutes ACCESS_TOKEN_EXPIRE_MINUTES))
              issued utcnow _ Hadd) as (tok & Hc & Hd).
  exists tok. rewrite Hsec in Hd. split; [| exact Hd].
  unfold login_for_access_token.
  rewrite (authenticate_user_row users r) by done. rewrite Hpw. simpl.
  rewrite (select_user_username users name r Hrow). by rewrite Hc.
Qed.

(** X1: the token of a successful login, presented no later than the
    second 30 minutes after the login, makes [get_current_user] return the
    user who logged in. *)
Theorem X1_login_token_authenticates (users : list user_row) (r : user_row)
    (name password : string) (issued utcnow : Z) :
  str_truthy name = true →
  select_user users name = Some r →
  verify_password password (user_hashed_password r) = true →
  timegm utcnow ≤ timegm issued + 30 * 60 →
  ∃ tok,
    login_for_access_token verify_password users name password issued
    = Ok {| access_token := tok; token_type := "bearer" |}
    ∧ get_current_user users tok utcnow = Ok (UserInDB_of_row r).
Proof.
  intros Hname Hrow Hpw Hlife.
  destruct (login_issues_token users r name password issued utcnow)
    as (tok & Hlogin & Hd); [done.. |].
  exists tok. split; [exact Hlogin |].
  unfold get_current_user, get_user. rewrite Hd.
  apply Z.ltb_ge in Hlife. rewrite Hlife. simpl. by rewrite Hname, Hrow.
Qed.

(** X2: once the second 30 minutes after the login has passed, the token
    is answered with the 401, whatever the [users] table holds. *)
Theorem X2_login_token_expires (users users' : list user_row) (r : user_row)
    (name password : string) (issued utcnow : Z) :
  str_truthy name = true →
  select_user users name = Some r →
  verify_password password (user_hashed_password r) = true →
  timegm issued + 30 * 60 < timegm utcnow →
  ∃ tok,
    login_for_access_token verify_password users name password issued
    = Ok {| access_token := tok; token_type := "bearer" |}
    ∧ get_current_user users' tok utcnow = Raise credential_exception.
Proof.
  intros Hname Hrow Hpw Hlife.
  destruct (login_issues_token users r name password issued utcnow)
    as (tok & Hlogin & Hd); [done.. |].
  exists tok. split; [exact Hlogin |].
  unfold get_current_user. rewrite Hd.
  apply Z.ltb_lt in Hlife. by rewrite Hlife.
Qed.

(** X3: the login does not look at [disabled]: a disabled user with the
    right password is given a token, and it is [get_current_active_user]
    that answers that token with the 400; for a user who is not disabled it
    returns the user. *)
Theorem X3_disabled_user_logs_in (users : list user_row) (r : user_row)
    (name password : string) (issued utcnow : Z) :
  str_truthy name = true →
  select_user users name = Some r →
  verify_password password (user_hashed_password r) = true →
  timegm utcnow ≤ timegm issued + 30 * 60 →
  ∃ tok,
    login_for_access_token verify_password users name password issued
    = Ok {| access_token := tok; token_type := "bearer" |}
    ∧ get_current_active_user users tok utcnow
      = if user_disabled r
        then Raise (HTTPException 400 "Inactive user" [])
        else Ok (UserInDB_of_row r).
Proof.
  intros Hname Hrow Hpw Hlife.
  destruct (login_issues_token users r name password issued utcnow)
    as (tok & Hlogin & Hd); [done.. |].
  exists tok. split; [exact Hlogin |].
  unfold get_current_active_user, get_current_user, get_user.
  rewrite Hd.
  apply Z.ltb_ge in Hlife. rewrite Hlife. simpl. rewrite Hname, Hrow. simpl.
  by destruct (user_disabled r).
Qed.
End session_properties.

Section token_edge_cases.
Context {jws : JWS}.

(** X4: a token that is valid, for a subject that is not empty and has no
    row in [users], does not reach the 401 of [get_current_user]:
    [get_user] raises the [TypeError] first, and the client gets a 500.
    The ttl is positive and keeps the clock within [datetime]. *)
Theorem X4_valid_token_of_unknown_user (users : list user_row)
    (subject : string) (ttl utcnow : Z) :
  0 < ttl →
  is_datetime (utcnow + ttl) = true →
  str_truthy subject = true →
  select_user users subject = None →
  ∃ tok,
    create_access_token {["sub" := JStr subject]} (Some ttl) utcnow = Ok tok
    ∧ get_current_user users tok utcnow = Raise TypeError
    ∧ respond 200 (get_current_user users tok utcnow)
      = ErrorResponse 500 "Internal Server Error" [].
Proof.
  intros Httl Hsum Hname Hrow.
  destruct (expiry_positive_ttl ttl utcnow Httl Hsum) as [Hadd Hnow].
  destruct (decode_issued_token subject (Some ttl) utcnow utcnow _ Hadd)
    as (tok & Hc & Hd).
  exists tok. split; [exact Hc |].
  assert (Hget : get_current_user users tok utcnow = Raise TypeError).
  { unfold get_current_user, get_user. rewrite Hd, Hnow. simpl.
    rewrite Hname, Hrow. reflexivity. }
  rewrite Hget. split; reflexivity.
Qed.

(** X5: the empty username never authenticates: a valid token whose
    subject is empty is answered with the 401, even when [users] has a row
    with the empty username.  The ttl is positive and keeps the clock
    within [datetime]. *)
Theorem X5_empty_subject_is_unauthorized (users : list user_row)
    (ttl utcnow : Z) :
  0 < ttl →
  is_datetime (utcnow + ttl) = true →
  ∃ tok,
    create_access_token {["sub" := JStr ""]} (Some ttl) utcnow = Ok tok
    ∧ decode_token_data tok utcnow = Ok ""
    ∧ get_current_user users tok utcnow = Raise credential_exception.
Proof.
  intros Httl Hsum.
  destruct (expiry_positive_ttl ttl utcnow Httl Hsum) as [Hadd Hnow].
  destruct (decode_issued_token "" (Some ttl) utcnow utcnow _ Hadd)
    as (tok & Hc & Hd).
  rewrite Hnow in Hd.
  exists tok. split; [exact Hc |]. split; [exact Hd |].
  unfold get_current_user. rewrite Hd. reflexivity.
Qed.

(** X6: a token issued with an [expires_delta] of minus one second or
    less that keeps the clock within [datetime] has expired when it is
    issued: presented at once, it is answered with the 401. *)
Theorem X6_negative_ttl_is_expired (users : list user_row) (subject : string)
    (ttl utcnow : Z) :
  ttl ≤ -1000000 →
  is_datetime (utcnow + ttl) = true →
  ∃ tok,
    create_access_token {["sub" := JStr subject]} (Some ttl) utcnow = Ok tok
    ∧ get_current_user users tok utcnow = Raise credential_exception.
Proof.
  intros Httl Hsum.
  assert (Hadd : datetime_add utcnow (effective_delta (Some ttl))
                 = Ok (utcnow + ttl)).
  { simpl. destruct (Z.eqb_spec ttl 0) as [-> | _]; [lia |].
    by apply datetime_add_datetime. }
  destruct (decode_issued_token subject (Some ttl) utcnow utcnow _ Hadd)
    as (tok & Hc & Hd).
  exists tok. split; [exact Hc |].
  unfold get_current_user. rewrite Hd.
  assert (Hlt : timegm (utcnow + ttl) < timegm utcnow).
  { assert (Hm : timegm (utcnow + ttl) ≤ timegm (utcnow + (-1) * 1000000))
      by (apply timegm_mono; lia).
    rewrite timegm_add_seconds in Hm. lia. }
  apply Z.ltb_lt in Hlt. by rewrite Hlt.
Qed.
End token_edge_cases.

(** ** Registered users *)

Lemma select_user_app (rows rows' : list user_row) (name : string) :
  select_user (rows ++ rows') name
  = match select_user rows name with
    | Some r => Some r
    | None => select_user rows' name
    end.
Proof.
  unfold select_user. induction rows as [| r rows IH]; simpl; [done |].
  by destruct (String.eqb _ _).
Qed.

Section registration_properties.
Context {jws : JWS}.
Variable verify_password : string → string → bool.
Variable get_password_hash : string → string → string.

(** X7: a user registered under a username that is not empty and had no
    row can authenticate with the password given at registration, as an
    enabled user without a full name; this rests on the library verifying a
    password against its own hash. *)
Theorem X7_registered_user_authenticates (db : users_database)
    (salt name mail password : string) :
  (∀ s p, verify_password p (get_password_hash s p) = true) →
  str_truthy name = true →
  select_user (user_rows db) name = None →
  authenticate_user verify_password
    (user_rows (add_user_to_database get_password_hash db salt name mail
                  password))
    name password
  = Ok (Some {| username := name;
                email := Some mail;
                full_name := None;
                disabled := Some false;
                hashed_password := get_password_hash salt password |}).
Proof.
  intros Hlaw Hname Hrow.
  erewrite authenticate_user_row; [| done |].
  2:{ unfold add_user_to_database. simpl.
      rewrite select_user_app, Hrow. unfold select_user. simpl.
      by rewrite String.eqb_refl. }
  simpl. by rewrite Hlaw.
Qed.

(** X8: usernames are not unique: registering a username that has a row
    already leaves every lookup as it was, so the older row keeps deciding
    the login under that name; lookups of other names are unchanged as
    well. *)
Theorem X8_registration_keeps_lookups (db : users_database)
    (salt name mail password name' : string) :
  name' ≠ name ∨ is_Some (select_user (user_rows db) name) →
  get_user
    (user_rows (add_user_to_database get_password_hash db salt name mail
                  password)) name'
  = get_user (user_rows db) name'
  ∧ ∀ password',
      authenticate_user verify_password
        (user_rows (add_user_to_database get_password_hash db salt name mail
                      password)) name' password'
      = authenticate_user verify_password (user_rows db) name' password'.
Proof.
  intros Hcase.
  assert (Hsel : select_user
                   (user_rows (add_user_to_database get_password_hash db salt
                                 name mail password)) name'
                 = select_user (user_rows db) name').
  { unfold add_user_to_database. simpl. rewrite select_user_app.
    destruct (select_user (user_rows db) name') as [r |] eqn:Hrow; [done |].
    unfold select_user. simpl.
    destruct (String.eqb_spec name name') as [-> | Hne]; [| done].
    destruct Hcase as [Hne | [r Hr]]; [done | congruence]. }
  assert (Hget : get_user
                   (user_rows (add_user_to_database get_password_hash db salt
                                 name mail password)) name'
                 = get_user (user_rows db) name').
  { unfold get_user. by rewrite Hsel. }
  split; [done |]. intros password'. unfold authenticate_user.
  by rewrite Hget.
Qed.
End registration_properties.

(** ** The table under sequences of requests *)

Section store_properties.
Context {R : SqlReal}.
Implicit Types (db : database) (r : car_row) (k j : Z).

Lemma ids_bounded_lookup db k r :
  ids_bounded db → car_models db !! k = Some r → k ≤ sqlite_sequence db.
Proof. intros Hb Hk. exact (Hb k r Hk). Qed.

(** The database after [create_car_model]: the one after the [INSERT],
    or the one before when the [INSERT] raises. *)
Lemma create_car_model_db db (car_model : CarModel) :
  (bindable car_model = true ∧ in_int64 (next_rowid db) = true
   ∧ insert_car_model db car_model
     = Ok ((create_car_model db car_model).1, next_rowid db)
   ∧ car_models (create_car_model db car_model).1
     = <[next_rowid db :=
           {| row_manufacturer := manufacturer car_model;
              row_model := model car_model;
              row_year := year car_model;
              row_price := real_stored (price car_model);
              row_image_path := None |}]> (car_models db)
   ∧ sqlite_sequence (create_car_model db car_model).1 = next_rowid db)
  ∨ ((bindable car_model = false ∨ in_int64 (next_rowid db) = false)
     ∧ (create_car_model db car_model).1 = db
     ∧ ∃ e, insert_car_model db car_model = Raise e).
Proof.
  unfold create_car_model.
  destruct (bindable car_model) eqn:Hb, (in_int64 (next_rowid db)) eqn:Hid.
  - left. rewrite insert_car_model_Ok by done. done.
  - right. split; [by right |].
    destruct (insert_car_model db car_model) as [[db' k] |] eqn:Hi.
    + apply insert_car_model_inv in Hi as [_ Hi]. congruence.
    + eauto.
  - right. split; [by left |].
    destruct (insert_car_model db car_model) as [[db' k] |] eqn:Hi.
    + apply insert_car_model_inv in Hi as [Hi _]. congruence.
    + eauto.
  - right. split; [by left |].
    destruct (insert_car_model db car_model) as [[db' k] |] eqn:Hi.
    + apply insert_car_model_inv in Hi as [Hi _]. congruence.
    + eauto.
Qed.


Lemma ids_bounded_create db (car_model : CarModel) :
  ids_bounded db →
  ids_bounded (create_car_model db car_model).1
  ∧ sqlite_sequence db ≤ sqlite_sequence (create_car_model db car_model).1.
Proof.
  intros Hb.
  destruct (create_car_model_db db car_model)
    as [(_ & _ & _ & Ht & Hs) | (_ & -> & _)]; [| split; [done | lia]].
  unfold ids_bounded. rewrite Ht, Hs. split.
  - apply map_Forall_insert_2; [lia |].
    intros j r Hj. apply (Hb j r) in Hj. unfold next_rowid. lia.
  - unfold next_rowid. lia.
Qed.

Lemma ids_bounded_alter db (f : car_row → car_row) k :
  ids_bounded db →
  ids_bounded {| car_models := alter f k (car_models db);
                 sqlite_sequence := sqlite_sequence db |}.
Proof.
  intros Hb j r Hj. simpl in *.
  apply lookup_alter_Some in Hj as [(_ & r' & Hr' & _) | [_ Hr']];
    by eapply Hb.
Qed.

(** The database after a delete. *)
Lemma delete_car_model_db db k :
  (delete_car_model db k).1
  = if in_int64 k
    then {| car_models := delete k (car_models db);
            sqlite_sequence := sqlite_sequence db |}
    else db.
Proof.
  unfold delete_car_model. destruct (in_int64 k); simpl; [| done].
  by destruct (_ =? 0).
Qed.

Lemma ids_bounded_delete db k :
  ids_bounded db →
  ids_bounded (delete_car_model db k).1
  ∧ sqlite_sequence (delete_car_model db k).1 = sqlite_sequence db.
Proof.
  intros Hb. rewrite delete_car_model_db.
  destruct (in_int64 k); [| done]. split; [| done].
  intros j r Hj. simpl in *.
  apply lookup_delete_Some in Hj as [_ Hj]. by eapply Hb.
Qed.

Lemma ids_bounded_update db k (car_model : CarModel) :
  ids_bounded db →
  ids_bounded (update_car_model db k car_model).1
  ∧ sqlite_sequence (update_car_model db k car_model).1 = sqlite_sequence db.
Proof.
  intros Hb. unfold update_car_model.
  destruct (negb _); [done |]. destruct (_ && _); [done |].
  destruct (_ =? 0); simpl; split; try done; by apply ids_bounded_alter.
Qed.

Lemma ids_bounded_delete_image db k :
  ids_bounded db →
  ids_bounded (delete_car_model_image db k).1
  ∧ sqlite_sequence (delete_car_model_image db k).1 = sqlite_sequence db.
Proof.
  intros Hb. unfold delete_car_model_image.
  destruct (negb _); [done |]. simpl. split; [| done].
  by apply ids_bounded_alter.
Qed.



(** X13: a delete removes as many rows as its row count says and nothing
    else: the other rows and the id counter are as before, and with no row
    under the id the database is unchanged; an id outside 64 bits is not
    bound, and the database is unchanged as well. *)
Theorem X13_delete_frame db k :
  (∀ j, j ≠ k →
        car_models (delete_car_model db k).1 !! j = car_models db !! j)
  ∧ sqlite_sequence (delete_car_model db k).1 = sqlite_sequence db
  ∧ Z.of_nat (size (car_models (delete_car_model db k).1))
    = Z.of_nat (size (car_models db))
      - (if in_int64 k then rowcount (car_models db) k else 0)
  ∧ (car_models db !! k = None → (delete_car_model db k).1 = db)
  ∧ (in_int64 k = false → delete_car_model db k = (db, Raise OverflowError)).
Proof.
  rewrite delete_car_model_db. unfold delete_car_model.
  destruct (in_int64 k); simpl; [| repeat split; lia].
  split; [| split; [done | split; [| split; [| done]]]].
  - intros j Hj. by rewrite lookup_delete_ne.
  - rewrite map_size_delete. unfold rowcount.
    destruct (car_models db !! k) as [r |] eqn:Hk; simpl; [| lia].
    assert (size (car_models db) ≠ 0%nat); [| lia].
    intros Hz%map_size_empty_inv. rewrite Hz in Hk.
    by rewrite lookup_empty in Hk.
  - intros Hk. rewrite delete_id by done. apply database_eta.
Qed.

(** X15: clearing the image link of an id within 64 bits never answers
    404: without a row under the id the answer is the same 202 and the
    database is unchanged; with one, its [image_path] becomes [NULL] and
    its other fields, like the other rows, stay.  An id outside 64 bits is
    not bound and the database is unchanged. *)
Theorem X15_delete_image_link db k :
  (in_int64 k = true →
   respond HTTP_202_ACCEPTED (delete_car_model_image db k).2
   = Response 202
       {| info := "Deleted image link on model id: " +:+ pretty k |})
  ∧ (in_int64 k = false →
     delete_car_model_image db k = (db, Raise OverflowError))
  ∧ (car_models db !! k = None → (delete_car_model_image db k).1 = db)
  ∧ (∀ r, in_int64 k = true → car_models db !! k = Some r →
          car_models (delete_car_model_image db k).1 !! k
          = Some {| row_manufacturer := row_manufacturer r;
                    row_model := row_model r;
                    row_year := row_year r;
                    row_price := row_price r;
                    row_image_path := None |})
  ∧ (∀ j, j ≠ k →
          car_models (delete_car_model_image db k).1 !! j
          = car_models db !! j).
Proof.
  unfold delete_car_model_image.
  destruct (in_int64 k); simpl; [| repeat split; done].
  split; [done |]. split; [done |]. split; [| split].
  - intros Hk. by apply update_image_path_None.
  - intros r _ Hk. simpl. by rewrite lookup_alter_eq, Hk.
  - intros j Hj. simpl. by rewrite lookup_alter_ne.
Qed.

(** Setting or clearing an image path is not visible in what
    [read_car_model] returns. *)
Lemma read_car_model_update_image_path db k (p : option string) j :
  read_car_model (update_image_path db k p) j = read_car_model db j.
Proof.
  unfold read_car_model, update_image_path. simpl.
  destruct (negb _); [done |].
  destruct (decide (k = j)) as [-> | Hne].
  - rewrite lookup_alter_eq. by destruct (car_models db !! j).
  - by rewrite lookup_alter_ne.
Qed.
End store_properties.

Section request_properties.
Context {R : SqlReal} {FS : FileSystem}.
Implicit Types (st : filesystem * database) (rq : request).

Lemma ids_bounded_image_handlers (fs : filesystem) (db : database) (k : Z)
    (f : UploadFile) :
  ids_bounded db →
  ids_bounded (upload_car_model_image fs db k f).1.2
  ∧ sqlite_sequence (upload_car_model_image fs db k f).1.2
    = sqlite_sequence db
  ∧ ids_bounded (update_car_model_image fs db k f).1.2
  ∧ sqlite_sequence (update_car_model_image fs db k f).1.2
    = sqlite_sequence db.
Proof.
  intros Hb. unfold upload_car_model_image, update_car_model_image.
  destruct (write_file _ _ _); [| done].
  destruct (negb _); [done |].
  destruct (_ =? 0); simpl; repeat split; by apply ids_bounded_alter.
Qed.

(** Serving a request keeps the ids under the counter and never lowers
    the counter. *)
Lemma serve_ids_bounded st rq :
  ids_bounded st.2 →
  ids_bounded (serve st rq).2
  ∧ sqlite_sequence st.2 ≤ sqlite_sequence (serve st rq).2.
Proof.
  intros Hb. destruct rq as [cm | k cm | k | k f | k f | k]; simpl.
  - by apply ids_bounded_create.
  - destruct (ids_bounded_update st.2 k cm Hb) as [Hb' Hs].
    split; [done | lia].
  - destruct (ids_bounded_delete st.2 k Hb) as [Hb' Hs].
    split; [done | lia].
  - destruct (ids_bounded_image_handlers st.1 st.2 k f Hb)
      as (Hb' & Hs & _). split; [done | lia].
  - destruct (ids_bounded_image_handlers st.1 st.2 k f Hb)
      as (_ & _ & Hb' & Hs). split; [done | lia].
  - destruct (ids_bounded_delete_image st.2 k Hb) as [Hb' Hs].
    split; [done | lia].
Qed.

Lemma serve_all_ids_bounded st (rqs : list request) :
  ids_bounded st.2 →
  ids_bounded (serve_all st rqs).2
  ∧ sqlite_sequence st.2 ≤ sqlite_sequence (serve_all st rqs).2.
Proof.
  unfold serve_all. revert st.
  induction rqs as [| rq rqs IH]; intros st Hb; simpl; [split; [done | lia] |].
  destruct (serve_ids_bounded st rq Hb) as [Hb' Hs].
  destruct (IH _ Hb') as [Hb'' Hs']. split; [done | lia].
Qed.

(** X10: whatever requests are served on a database that starts without
    rows, every id in the table stays at or below the counter that
    [AUTOINCREMENT] keeps, and the counter never goes down. *)
Theorem X10_ids_stay_under_the_counter (fs : filesystem) (seq0 : Z)
    (rqs : list request) :
  let db0 := {| car_models := ∅; sqlite_sequence := seq0 |} in
  ids_bounded (serve_all (fs, db0) rqs).2
  ∧ seq0 ≤ sqlite_sequence (serve_all (fs, db0) rqs).2.
Proof.
  intros db0. apply (serve_all_ids_bounded (fs, db0)).
  unfold ids_bounded. simpl. apply map_Forall_empty.
Qed.

(** X11: an id is not given twice: when a row has had an id, every row
    inserted later, after any requests (the row's own deletion among
    them), gets a larger id, and so does every car model that
    [create_car_model] then answers with. *)
Theorem X11_ids_are_not_reused st (k : Z) (r : car_row)
    (rqs : list request) (car_model : CarModel) :
  ids_bounded st.2 →
  car_models st.2 !! k = Some r →
  (∀ db' new_id,
      insert_car_model (serve_all st rqs).2 car_model = Ok (db', new_id) →
      k < new_id)
  ∧ (∀ created,
      (create_car_model (serve_all st rqs).2 car_model).2 = Ok created →
      k < car_model_id created).
Proof.
  intros Hb Hk.
  destruct (serve_all_ids_bounded st rqs Hb) as [_ Hs].
  pose proof (ids_bounded_lookup _ _ _ Hb Hk) as Hle.
  assert (Hnext : k < next_rowid (serve_all st rqs).2)
    by (unfold next_rowid; lia).
  assert (Hinsert : ∀ db' new_id,
             insert_car_model (serve_all st rqs).2 car_model
             = Ok (db', new_id) → k < new_id).
  { intros db' new_id Hi.
    destruct (insert_car_model_inv _ _ _ _ Hi) as [Hbind Hid].
    rewrite insert_car_model_Ok in Hi by done. by injection Hi as _ <-. }
  split; [exact Hinsert |].
  intros created. unfold create_car_model, render.
  destruct (insert_car_model _ _) as [[db' new_id] |] eqn:Hi; [| done].
  simpl. destruct (real_is_finite _); [| done].
  intros [= <-]. simpl. by eapply Hinsert.
Qed.

(** X14: with a row under an id within 64 bits and the file written,
    both upload handlers answer with their message and record
    ["uploaded_images/<filename>"] on that row; its other fields and the
    other rows are as before, and no [read_car_model] sees a difference. *)
Theorem X14_image_of_existing_id (fs fs' : filesystem) (db : database)
    (k : Z) (r : car_row) (f : UploadFile) :
  let file_location := IMAGE_DIR +:+ "/" +:+ filename f in
  let db' := update_image_path db k (Some file_location) in
  in_int64 k = true →
  car_models db !! k = Some r →
  write_file fs file_location (file f) = Some fs' →
  upload_car_model_image fs db k f
  = (fs', db',
     Ok {| info := "image of Car Model id:'" +:+ pretty k
                     +:+ "' was set to '" +:+ filename f +:+ "'" |})
  ∧ update_car_model_image fs db k f
    = (fs', db',
       Ok {| info := "image of Car Model id:'" +:+ pretty k
                       +:+ "' was updated to '" +:+ filename f +:+ "'" |})
  ∧ car_models db' !! k
    = Some {| row_manufacturer := row_manufacturer r;
              row_model := row_model r;
              row_year := row_year r;
              row_price := row_price r;
              row_image_path := Some ("uploaded_images/" +:+ filename f) |}
  ∧ (∀ j, j ≠ k → car_models db' !! j = car_models db !! j)
  ∧ (∀ j, read_car_model db' j = read_car_model db j).
Proof.
  intros file_location db' Hid Hk Hw.
  unfold upload_car_model_image, update_car_model_image.
  fold file_location. rewrite Hw, Hid, (rowcount_Some _ _ _ Hk). simpl.
  fold db'. split; [done |]. split; [done |]. subst db'.
  split; [simpl; by rewrite lookup_alter_eq, Hk |].
  split; [intros j Hj; simpl; by rewrite lookup_alter_ne |].
  intros j. apply read_car_model_update_image_path.
Qed.

(** X16: file names are not made unique: two uploads under the same file
    name for two rows, with ids within 64 bits, write the same path twice,
    and both rows end up recording that one path. *)
Theorem X16_same_filename_same_path (fs fs1 fs2 : filesystem)
    (db : database) (k1 k2 : Z) (r1 r2 : car_row) (f1 f2 : UploadFile) :
  let file_location := IMAGE_DIR +:+ "/" +:+ filename f1 in
  filename f2 = filename f1 →
  k1 ≠ k2 →
  in_int64 k1 = true →
  in_int64 k2 = true →
  car_models db !! k1 = Some r1 →
  car_models db !! k2 = Some r2 →
  write_file fs file_location (file f1) = Some fs1 →
  write_file fs1 file_location (file f2) = Some fs2 →
  ∃ db' r1' r2',
    serve_all (fs, db) [PostImage k1 f1; PostImage k2 f2] = (fs2, db')
    ∧ car_models db' !! k1 = Some r1'
    ∧ car_models db' !! k2 = Some r2'
    ∧ row_image_path r1' = Some file_location
    ∧ row_image_path r2' = Some file_location.
Proof.
  intros file_location Hname Hne Hid1 Hid2 Hk1 Hk2 Hw1 Hw2.
  unfold serve_all. simpl. unfold upload_car_model_image. simpl.
  rewrite Hname. fold file_location.
  rewrite Hw1, Hid1. simpl. rewrite Hw2, Hid2. simpl.
  eexists _, _, _. split; [reflexivity |]. simpl.
  rewrite lookup_alter_ne, lookup_alter_eq, Hk1 by done.
  rewrite lookup_alter_eq, lookup_alter_ne, Hk2 by done. simpl.
  done.
Qed.
End request_properties.

(** ** What the list returns *)

Lemma Sorted_take {A} (rel : relation A) (n : nat) (l : list A) :
  Sorted rel l → Sorted rel (take n l).
Proof.
  intros Hl. revert n.
  induction Hl as [| x l Hl IH Hx]; intros [| n]; simpl; try constructor.
  - apply IH.
  - destruct Hx as [| y l Hxy]; [by destruct n |].
    destruct n; simpl; by constructor.
Qed.

Section listing_rows.
Context {R : SqlReal} {Q : OtherQueries}.
Implicit Types (db : database) (rows : list (Z * car_row)).

Lemma known_rows_NoDup order (n : Z) (t : gmap Z car_row) :
  NoDup (known_rows order n t).*1.
Proof.
  destruct (known_rows_sublist order n t) as (rows' & Hsub & Hperm).
  apply (sublist_NoDup _ (rows'.*1)); [| by apply fmap_sublist].
  rewrite Hperm. apply NoDup_fst_map_to_list.
Qed.

(** The rows behind a list, whatever text was pasted into the query: rows
    of the table, each at most once. *)
Lemma read_car_models_rows db limit (sort_by : option string) descending
    (l : list CarModelInDB) :
  read_car_models db limit sort_by descending = Ok l →
  ∃ rows,
    l = CarModelInDB_of_row <$> rows
    ∧ NoDup rows.*1
    ∧ ∀ k r, (k, r) ∈ rows → car_models db !! k = Some r.
Proof.
  unfold read_car_models, execute_query.
  destruct (parse_query _) as [order |].
  - destruct (negb _); [done |]. simpl.
    intros ->%render_list_inv. eexists. split; [done |].
    split; [apply known_rows_NoDup |].
    intros k r. apply known_rows_elem_of.
  - destruct (execute_other _ _ _) as [rows |] eqn:Hq; [| done]. simpl.
    intros ->%render_list_inv. exists rows. split; [done |].
    by eapply execute_other_rows.
Qed.

(** Without a bound, the rows of a known query are the table in some
    order. *)
Lemma elem_of_known_rows_all order (n : Z) (t : gmap Z car_row) k r :
  n < 0 ∨ Z.of_nat (size t) ≤ n →
  t !! k = Some r → (k, r) ∈ known_rows order n t.
Proof.
  intros Hn Hkr. rewrite (known_rows_all order n t Hn).
  by apply elem_of_map_to_list.
Qed.

(** X17: the list shows rows of the table and nothing else: every car
    model in it has the id and the four fields of a row, and no id comes
    twice, whatever the limit, the order asked for and the text that
    [sort_by] pastes into the query. *)
Theorem X17_list_shows_table_rows db limit (sort_by : option string)
    descending (l : list CarModelInDB) :
  read_car_models db limit sort_by descending = Ok l →
  (∀ x, x ∈ l →
        ∃ r, car_models db !! car_model_id x = Some r
             ∧ manufacturer x = row_manufacturer r
             ∧ model x = row_model r
             ∧ year x = row_year r
             ∧ price x = row_price r)
  ∧ NoDup (car_model_id <$> l).
Proof.
  intros Hl.
  destruct (read_car_models_rows _ _ _ _ _ Hl) as (rows & -> & Hnd & Hrows).
  split.
  - intros x ([k r] & -> & Hkr)%list_elem_of_fmap.
    exists r. split; [| done]. simpl. by apply Hrows.
  - by rewrite <- list_fmap_compose.
Qed.

(** X18: with a limit within 64 bits that is negative or at least the
    number of rows, [sort_by] absent or one of the five columns and no
    infinite price in the table, the list holds every row of the table,
    each once: it is a rearrangement of the table. *)
Theorem X18_unbounded_list_is_complete db limit (sort_by : option column)
    descending :
  default 10 limit < 0 ∨ Z.of_nat (size (car_models db)) ≤ default 10 limit →
  in_int64 (default 10 limit) = true →
  map_Forall (λ _ r, real_is_finite (row_price r) = true) (car_models db) →
  ∃ l,
    read_car_models db limit (column_name <$> sort_by) descending = Ok l
    ∧ l ≡ₚ CarModelInDB_of_row <$> map_to_list (car_models db)
    ∧ length l = size (car_models db)
    ∧ ∀ k r, car_models db !! k = Some r → CarModelInDB_of_row (k, r) ∈ l.
Proof.
  intros Hn Hbind Hfin.
  eexists. split; [by apply read_car_models_Ok |].
  pose proof (known_rows_all
                ((λ c, (c, default false descending)) <$> sort_by)
                (default 10 limit) (car_models db) Hn) as Hperm.
  split; [by rewrite Hperm |]. split.
  - by rewrite Hperm, length_fmap, length_map_to_list.
  - intros k r Hkr. apply list_elem_of_fmap. exists (k, r).
    split; [done | by apply elem_of_known_rows_all].
Qed.

Lemma column_le_model_le (c : column) (a b : Z * car_row) :
  column_le c a b →
  model_le c (CarModelInDB_of_row a) (CarModelInDB_of_row b).
Proof. by destruct c. Qed.

Lemma known_rows_sorted (c : column) (descending : bool) (n : Z)
    (t : gmap Z car_row) :
  if descending
  then Sorted (flip (model_le c))
         (CarModelInDB_of_row <$> known_rows (Some (c, descending)) n t)
  else Sorted (model_le c)
         (CarModelInDB_of_row <$> known_rows (Some (c, descending)) n t).
Proof.
  unfold known_rows, order_by. simpl. destruct descending; simpl.
  - apply (Sorted_fmap _ (flip (column_le c))).
    { intros a b. apply column_le_model_le. }
    assert (Hs : Sorted (flip (column_le c))
                   (merge_sort (flip (column_le c)) (select_all t))).
    { apply Sorted_merge_sort. intros a b. unfold flip.
      apply (column_le_total c). }
    unfold sql_limit. destruct (_ <? 0); [done | by apply Sorted_take].
  - apply (Sorted_fmap _ (column_le c)).
    { intros a b. apply column_le_model_le. }
    assert (Hs : Sorted (column_le c)
                   (merge_sort (column_le c) (select_all t))).
    { apply Sorted_merge_sort. apply column_le_total. }
    unfold sql_limit. destruct (_ <? 0); [done | by apply Sorted_take].
Qed.

(** X19: sorted by any of the five columns, the list is in that column's
    order: ascending when [descending] is absent or false, descending when
    it is true, each car model against the next. *)
Theorem X19_list_is_sorted_by_column db limit (c : column)
    (descending : option bool) (l : list CarModelInDB) :
  read_car_models db limit (Some (column_name c)) descending = Ok l →
  if default false descending
  then Sorted (flip (model_le c)) l
  else Sorted (model_le c) l.
Proof.
  intros Hl.
  apply (read_car_models_inv db limit (Some c) descending) in Hl as ->.
  apply known_rows_sorted.
Qed.

End listing_rows.

(** ** Consecutive ids *)

Lemma foldr_max_le (l : list Z) (b : Z) :
  0 ≤ b → (∀ k, k ∈ l → k ≤ b) → foldr Z.max 0 l ≤ b.
Proof.
  intros Hb. induction l as [| x l IH]; simpl; intros Hl; [done |].
  assert (x ≤ b) by (apply Hl; left).
  assert (foldr Z.max 0 l ≤ b) by (apply IH; intros k Hk; apply Hl; by right).
  lia.
Qed.

Lemma foldr_max_nonneg (l : list Z) : 0 ≤ foldr Z.max 0 l.
Proof. induction l; simpl; lia. Qed.

Section consecutive_ids.
Context {R : SqlReal}.

Lemma max_rowid_le (t : gmap Z car_row) (b : Z) :
  0 ≤ b → (∀ k r, t !! k = Some r → k ≤ b) → max_rowid t ≤ b.
Proof.
  intros Hb Ht. apply foldr_max_le; [done |].
  intros k ([k' r] & -> & Hkr%elem_of_map_to_list)%list_elem_of_fmap.
  by eapply Ht.
Qed.

Lemma next_rowid_positive (db : database) : 1 ≤ next_rowid db.
Proof.
  pose proof (foldr_max_nonneg (map_to_list (car_models db)).*1) as Hnn.
  fold (max_rowid (car_models db)) in Hnn. unfold next_rowid. lia.
Qed.

(** After an [INSERT], the next id is the one after the id it gave. *)
Lemma next_rowid_insert (db db' : database) (car_model : CarModel) (k : Z) :
  insert_car_model db car_model = Ok (db', k) →
  k = next_rowid db
  ∧ next_rowid db' = next_rowid db + 1
  ∧ size (car_models db') = S (size (car_models db))
  ∧ ∀ j r, car_models db !! j = Some r → car_models db' !! j = Some r.
Proof.
  intros Hi. destruct (insert_car_model_inv _ _ _ _ Hi) as [Hb Hid].
  rewrite insert_car_model_Ok in Hi by done. injection Hi as <- <-.
  destruct (next_rowid_fresh db) as [Hfresh _].
  split; [done |]. split; [| split].
  - unfold next_rowid at 1. simpl.
    pose proof (next_rowid_positive db) as Hpos.
    assert (Hmax : max_rowid
                     (<[next_rowid db :=
                          {| row_manufacturer := manufacturer car_model;
                             row_model := model car_model;
                             row_year := year car_model;
                             row_price := real_stored (price car_model);
                             row_image_path := None |}]> (car_models db))
                   ≤ next_rowid db).
    { apply max_rowid_le; [lia |].
      intros k r [[<- _] | [_ Hk]]%lookup_insert_Some; [done |].
      apply max_rowid_ge in Hk. unfold next_rowid. lia. }
    lia.
  - simpl. by apply map_size_insert_None.
  - intros j r Hj. simpl. rewrite lookup_insert_ne; [done |].
    intros <-. congruence.
Qed.


End consecutive_ids.

(** ** Ids are rowids *)

Section rowids.
Context {R : SqlReal} {FS : FileSystem}.

Lemma ids_in_range_alter (db : database) (f : car_row → car_row) (k : Z) :
  ids_in_range db →
  ids_in_range {| car_models := alter f k (car_models db);
                  sqlite_sequence := sqlite_sequence db |}.
Proof.
  intros Hb j r Hj. simpl in *.
  apply lookup_alter_Some in Hj as [(_ & r' & Hr' & _) | [_ Hr']];
    by eapply Hb.
Qed.

(** No request puts a row under an id that is not a rowid. *)
Lemma serve_ids_in_range (st : filesystem * database) (rq : request) :
  ids_in_range st.2 → ids_in_range (serve st rq).2.
Proof.
  intros Hb. destruct rq as [cm | k cm | k | k f | k f | k]; simpl.
  - destruct (create_car_model_db st.2 cm)
      as [(_ & Hid & _ & Ht & _) | (_ & -> & _)]; [| done].
    unfold ids_in_range. rewrite Ht.
    apply map_Forall_insert_2; [| done].
    split; [apply next_rowid_positive | done].
  - unfold update_car_model.
    destruct (negb _); [done |]. destruct (_ && _); [done |].
    destruct (_ =? 0); simpl; by apply ids_in_range_alter.
  - rewrite delete_car_model_db. destruct (in_int64 k); [| done].
    intros j r Hj. simpl in *.
    apply lookup_delete_Some in Hj as [_ Hj]. by eapply Hb.
  - unfold upload_car_model_image.
    destruct (write_file _ _ _); [| done].
    destruct (negb _); [done |]. simpl. by apply ids_in_range_alter.
  - unfold update_car_model_image.
    destruct (write_file _ _ _); [| done].
    destruct (negb _); [done |].
    destruct (_ =? 0); simpl; by apply ids_in_range_alter.
  - unfold delete_car_model_image.
    destruct (negb _); [done |]. simpl. by apply ids_in_range_alter.
Qed.

(** X26: whatever requests are served on a database that starts without
    rows, every id in the table is positive and within 64 bits: the ids
    that requests can name outside that range have no row. *)
Theorem X26_ids_are_rowids (fs : filesystem) (seq0 : Z)
    (rqs : list request) :
  let db0 := {| car_models := ∅; sqlite_sequence := seq0 |} in
  ids_in_range (serve_all (fs, db0) rqs).2.
Proof.
  intros db0.
  assert (Hall : ∀ st, ids_in_range st.2 → ids_in_range (serve_all st rqs).2).
  { unfold serve_all. induction rqs as [| rq rqs IH]; intros st Hb; simpl;
      [done |].
    by apply IH, serve_ids_in_range. }
  apply (Hall (fs, db0)). unfold ids_in_range. simpl. apply map_Forall_empty.
Qed.
End rowids.

(** ** Seeding the table *)

Section seeding_properties.
Context {R : SqlReal}.
Variable create_random_car_model : nat → string * string * Z * real.

Lemma insert_draws_Raise (e : exn) (draws : list nat) :
  foldl (insert_draw create_random_car_model) (Raise e) draws = Raise e.
Proof. induction draws as [| i draws IH]; simpl; [done | exact IH]. Qed.

(** The draws that are inserted keep the rows that were there. *)
Lemma insert_draws_keep (db db' : database) (draws : list nat) :
  foldl (insert_draw create_random_car_model) (Ok db) draws = Ok db' →
  ∀ j r, car_models db !! j = Some r → car_models db' !! j = Some r.
Proof.
  revert db. induction draws as [| i draws IH]; intros db; simpl.
  - by intros [= <-].
  - destruct (create_random_car_model i) as [[[m mo] y] p].
    destruct (insert_car_model db _) as [[db1 k] |] eqn:Hi; simpl.
    + intros Hfold j r Hj. apply (IH _ Hfold).
      by apply (next_rowid_insert _ _ _ _ Hi).
    + by rewrite insert_draws_Raise.
Qed.

(** Draws with a year within 64 bits and a price that is not a NaN are
    all inserted while ids are left. *)
Lemma insert_draws_Ok (db : database) (draws : list nat) :
  Forall (λ i, in_int64 (create_random_car_model i).1.2 = true
               ∧ real_is_nan (create_random_car_model i).2 = false) draws →
  in_int64 (next_rowid db + Z.of_nat (length draws) - 1) = true →
  ∃ db',
    foldl (insert_draw create_random_car_model) (Ok db) draws = Ok db'
    ∧ size (car_models db') = (size (car_models db) + length draws)%nat.
Proof.
  intros Hdraws. revert db.
  induction Hdraws as [| i draws [Hy Hp] _ IH]; intros db Hid; simpl.
  - exists db. split; [done | lia].
  - destruct (create_random_car_model i) as [[[m mo] y] p]. simpl in Hy, Hp.
    pose proof (next_rowid_positive db) as Hpos.
    assert (Hid1 : in_int64 (next_rowid db) = true).
    { unfold in_int64 in *. apply andb_true_iff in Hid as [_ Hhi].
      apply Z.leb_le in Hhi. simpl length in Hhi.
      apply andb_true_iff. split; apply Z.leb_le; lia. }
    assert (Hb : bindable {| manufacturer := m; model := mo; year := y;
                             price := p |} = true).
    { unfold bindable. simpl. by rewrite Hy, Hp. }
    assert (∃ db1, insert_car_model db
                     {| manufacturer := m; model := mo; year := y;
                        price := p |} = Ok (db1, next_rowid db))
      as [db1 Hi] by (eexists; by apply insert_car_model_Ok).
    destruct (next_rowid_insert _ _ _ _ Hi) as (_ & Hnext & Hsize & _).
    rewrite Hi. simpl.
    destruct (IH db1) as (db' & Hfold & Hsize').
    { rewrite Hnext. simpl length in Hid.
      replace (next_rowid db + 1 + Z.of_nat (length draws) - 1)
        with (next_rowid db + Z.of_nat (S (length draws)) - 1) by lia.
      exact Hid. }
    exists db'. split; [exact Hfold |].
    rewrite Hsize', Hsize. lia.
Qed.

(** X21: seeding with [n] random car models, drawn with a year within 64
    bits and a price that is not a NaN as [create_random_car_model] draws
    them, adds [n] rows when [n] is positive and none otherwise, as long as
    ids are left; and whether it returns or raises, every row that was
    there is kept. *)
Theorem X21_seeding_adds_n_rows (db : database) (n : Z) :
  ((∀ i, in_int64 (create_random_car_model i).1.2 = true
         ∧ real_is_nan (create_random_car_model i).2 = false) →
   in_int64 (next_rowid db + Z.max 0 n - 1) = true →
   (insert_random_car_models create_random_car_model db n).2 = Ok ()
   ∧ Z.of_nat (size (car_models
                       (insert_random_car_models create_random_car_model db
                          n).1))
     = Z.of_nat (size (car_models db)) + Z.max 0 n)
  ∧ ∀ j r, car_models db !! j = Some r →
           car_models (insert_random_car_models create_random_car_model db
                         n).1 !! j = Some r.
Proof.
  unfold insert_random_car_models. split.
  - intros Hdraws Hid.
    destruct (insert_draws_Ok db (seq 0 (Z.to_nat n))) as (db' & -> & Hsize).
    { apply Forall_forall. intros i _. apply Hdraws. }
    { rewrite length_seq.
      replace (Z.of_nat (Z.to_nat n)) with (Z.max 0 n) by lia. exact Hid. }
    simpl. split; [done |]. rewrite Hsize, length_seq. lia.
  - intros j r Hj.
    destruct (foldl (insert_draw create_random_car_model) (Ok db)
                (seq 0 (Z.to_nat n))) as [db' |] eqn:Hfold; simpl; [| done].
    by eapply insert_draws_keep.
Qed.
End seeding_properties.

(** ** What authentication never does *)

Section soundness_properties.
Context {jws : JWS}.
Variable verify_password : string → string → bool.

(** X22: no token without the password: when the login answers with a
    token, the username is not empty, [users] has a row for it, and the
    hash of the first such row verifies the password that was sent. *)
Theorem X22_login_needs_the_password (users : list user_row)
    (name password : string) (utcnow : Z) (t : Token) :
  login_for_access_token verify_password users name password utcnow = Ok t →
  token_type t = "bearer"
  ∧ str_truthy name = true
  ∧ ∃ r, select_user users name = Some r
         ∧ verify_password password (user_hashed_password r) = true.
Proof.
  unfold login_for_access_token, authenticate_user, get_user.
  destruct (str_truthy name); [| done].
  destruct (select_user users name) as [r |]; [| done]. simpl.
  destruct (verify_password _ _) eqn:Hpw; [| done]. simpl.
  destruct (create_access_token _ _ _); simpl; [| done].
  intros [= <-]. eauto.
Qed.

(** X23: a user is returned for a token only if the token verifies under
    [SECRET_KEY] and [ALGORITHM], its ["exp"], when present, converts to
    an integer that is not below the second of the clock, its ["nbf"],
    when present, to one that is not above it, it has no ["aud"], and its
    ["sub"] is a username that is not empty and has a row in [users]; the
    user is the first such row. *)
Theorem X23_current_user_needs_a_valid_token (users : list user_row)
    (tok : token) (utcnow : Z) (u : UserInDB) :
  get_current_user users tok utcnow = Ok u →
  ∃ claims name r,
    jws_verify tok SECRET_KEY [ALGORITHM] = Some claims
    ∧ claims !! "sub" = Some (JStr name)
    ∧ str_truthy name = true
    ∧ select_user users name = Some r
    ∧ u = UserInDB_of_row r
    ∧ (∀ v, claims !! "exp" = Some v →
            ∃ e, claim_int v = Some e ∧ timegm utcnow ≤ e)
    ∧ (∀ v, claims !! "nbf" = Some v →
            ∃ n, claim_int v = Some n ∧ n ≤ timegm utcnow)
    ∧ claims !! "aud" = None.
Proof.
  unfold get_current_user, decode_token_data, jwt_decode.
  destruct (jws_verify tok SECRET_KEY [ALGORITHM]) as [claims |]; [| done].
  destruct (validate_claims claims (timegm utcnow)) eqn:Hvalid; [| done].
  destruct (claims !! "sub") as [[name | |] |] eqn:Hsub; [| done.. ]. simpl.
  unfold get_user.
  destruct (str_truthy name) eqn:Hname; [| done].
  destruct (select_user users name) as [r |] eqn:Hrow; [| done]. simpl.
  intros [= <-]. exists claims, name, r.
  unfold validate_claims in Hvalid.
  repeat (apply andb_true_iff in Hvalid as [Hvalid ?]).
  repeat split; [done.. | | |].
  - intros v Hv. unfold validate_exp in *. rewrite Hv in *.
    destruct (claim_int v) as [e |]; [| done].
    exists e. split; [done |].
    by match goal with H : negb (_ <? _) = true |- _ =>
         apply negb_true_iff, Z.ltb_ge in H end.
  - intros v Hv. unfold validate_nbf in *. rewrite Hv in *.
    destruct (claim_int v) as [n |]; [| done].
    exists n. split; [done |].
    by match goal with H : negb (_ <? _) = true |- _ =>
         apply negb_true_iff, Z.ltb_ge in H end.
  - unfold validate_absent in *. by destruct (claims !! "aud").
Qed.

(** The user of a token is built from a row of [users]. *)
Lemma get_current_user_row (users : list user_row) (tok : token)
    (utcnow : Z) (u : UserInDB) :
  get_current_user users tok utcnow = Ok u → ∃ r, u = UserInDB_of_row r.
Proof.
  unfold get_current_user.
  destruct (decode_token_data tok utcnow) as [name |]; [| done]. simpl.
  unfold get_user. destruct (str_truthy name); [| done].
  destruct (select_user users name) as [r |]; [| done]. simpl.
  intros [= <-]. eauto.
Qed.

(** X24: [get_current_active_user], which guards every car model route,
    never returns a disabled user. *)
Theorem X24_active_user_is_enabled (users : list user_row) (tok : token)
    (utcnow : Z) (u : UserInDB) :
  get_current_active_user users tok utcnow = Ok u →
  disabled u = Some false ∧ get_current_user users tok utcnow = Ok u.
Proof.
  unfold get_current_active_user.
  destruct (get_current_user users tok utcnow) as [u' |] eqn:Hu; [| done].
  destruct (get_current_user_row _ _ _ _ Hu) as [r ->]. simpl.
  destruct (user_disabled r) eqn:Hd; [done |].
  intros [= <-]. simpl. by rewrite Hd.
Qed.
End soundness_properties.

(** ** The further properties on the sample data *)

Lemma substring_all (s : string) : String.substring 0 (String.length s) s = s.
Proof. induction s as [| a s IH]; simpl; [done | by rewrite IH]. Qed.

Lemma sample_verify_hash (salt password : string) :
  sample_verify password (sample_hash salt password) = true.
Proof.
  unfold sample_verify, sample_hash. simpl.
  rewrite Nat.sub_0_r, substring_all. apply String.eqb_refl.
Qed.

Lemma sample_database_bounded : ids_bounded sample_database.
Proof.
  unfold sample_database, sample_cars. cbn [foldl].
  repeat apply ids_bounded_create. apply map_Forall_empty.
Qed.

Example registered_users_rows :
  user_rows registered_users = (sample_users ++ [carol_row])%list.
Proof. reflexivity. Qed.

(** The pasted [sort_by] on the sample database: with [limit=2] the rows
    after the second are returned, three of them. *)
Example sample_pasted_offset :
  ∃ l,
    read_car_models (Q := pasted_queries) sample_database (Some 2)
      (Some pasted_sort_by) None = Ok l
    ∧ car_model_id <$> l = [3; 4; 5].
Proof. eexists. split; [by vm_compute | by vm_compute]. Qed.

(** The token whose ["exp"] is the string ["30"], presented at second 20,
    is accepted. *)
Example string_exp_is_converted :
  ∃ u,
    get_current_user (jws := clear_jws) sample_users string_exp_token
      20000000 = Ok u
    ∧ username u = "admin".
Proof. eexists. split; [by vm_compute | by vm_compute]. Qed.

(** X1 for ["carol"], who logs in at second 0 and presents the token in
    the last second of its life. *)
Lemma X1_login_token_witness :
  ∃ tok,
    login_for_access_token (jws := clear_jws) sample_verify
      (user_rows registered_users) "carol" "pw" 0
    = Ok {| access_token := tok; token_type := "bearer" |}
    ∧ get_current_user (user_rows registered_users) tok 1800999999
      = Ok (UserInDB_of_row carol_row).
Proof.
  apply (X1_login_token_authenticates (jws := clear_jws) sample_verify
           (user_rows registered_users) carol_row "carol" "pw" 0 1800999999);
    [reflexivity | reflexivity | reflexivity | vm_compute; discriminate].
Defined.

(** X2 for the same login, one microsecond later. *)
Lemma X2_login_token_expires_witness :
  ∃ tok,
    login_for_access_token (jws := clear_jws) sample_verify
      (user_rows registered_users) "carol" "pw" 0
    = Ok {| access_token := tok; token_type := "bearer" |}
    ∧ get_current_user [] tok 1801000000 = Raise credential_exception.
Proof.
  apply (X2_login_token_expires (jws := clear_jws) sample_verify
           (user_rows registered_users) [] carol_row "carol" "pw" 0
           1801000000);
    [reflexivity | reflexivity | reflexivity | vm_compute; reflexivity].
Defined.

(** X3 for ["bob"], who is disabled. *)
Lemma X3_disabled_user_witness :
  ∃ tok,
    login_for_access_token (jws := clear_jws) sample_verify disabled_users
      "bob" "pw" 0
    = Ok {| access_token := tok; token_type := "bearer" |}
    ∧ get_current_active_user disabled_users tok 1000000
      = Raise (HTTPException 400 "Inactive user" []).
Proof.
  apply (X3_disabled_user_logs_in (jws := clear_jws) sample_verify
           disabled_users bob_row "bob" "pw" 0 1000000);
    [reflexivity | reflexivity | reflexivity | vm_compute; discriminate].
Defined.

(** X4 for a token of ["alice"], who has no row. *)
Lemma X4_unknown_user_witness :
  ∃ tok,
    create_access_token (jws := clear_jws) {["sub" := JStr "alice"]} (Some 1)
      5000000 = Ok tok
    ∧ get_current_user sample_users tok 5000000 = Raise TypeError
    ∧ respond 200 (get_current_user sample_users tok 5000000)
      = ErrorResponse 500 "Internal Server Error" [].
Proof.
  apply (X4_valid_token_of_unknown_user (jws := clear_jws) sample_users
           "alice" 1 5000000);
    [lia | reflexivity | reflexivity | reflexivity].
Defined.

(** X5 over a table that has a row with the empty username. *)
Lemma X5_empty_subject_witness :
  let users :=
    [ {| user_id := 1; user_username := ""; user_email := "e@example.com";
         user_full_name := None; user_hashed_password := "salt$pw";
         user_disabled := false |} ] in
  ∃ tok,
    create_access_token (jws := clear_jws) {["sub" := JStr ""]} (Some 1)
      5000000 = Ok tok
    ∧ decode_token_data tok 5000000 = Ok ""
    ∧ get_current_user users tok 5000000 = Raise credential_exception.
Proof.
  intros users.
  apply (X5_empty_subject_is_unauthorized (jws := clear_jws) users 1 5000000);
    [lia | reflexivity].
Defined.

(** X6 for a life of minus one second. *)
Lemma X6_negative_ttl_witness :
  ∃ tok,
    create_access_token (jws := clear_jws) {["sub" := JStr "admin"]}
      (Some (-1000000)) 5000000 = Ok tok
    ∧ get_current_user sample_users tok 5000000 = Raise credential_exception.
Proof.
  apply (X6_negative_ttl_is_expired (jws := clear_jws) sample_users "admin"
           (-1000000) 5000000); [lia | reflexivity].
Defined.

(** X7 for the registration of ["carol"]. *)
Lemma X7_registered_user_witness :
  authenticate_user sample_verify (user_rows registered_users) "carol" "pw"
  = Ok (Some {| username := "carol";
                email := Some "carol@example.com";
                full_name := None;
                disabled := Some false;
                hashed_password := "salt$pw" |}).
Proof.
  apply (X7_registered_user_authenticates sample_verify sample_hash
           sample_users_database "s" "carol" "carol@example.com" "pw");
    [apply sample_verify_hash | reflexivity | reflexivity].
Defined.

(** X8 for a second registration of ["admin"]. *)
Lemma X8_registration_keeps_lookups_witness :
  get_user
    (user_rows (add_user_to_database sample_hash sample_users_database "s"
                  "admin" "other@example.com" "pw")) "admin"
  = get_user sample_users "admin".
Proof.
  apply (X8_registration_keeps_lookups sample_verify sample_hash
           sample_users_database "s" "admin" "other@example.com" "pw" "admin").
  right. eexists. reflexivity.
Defined.


(** X11 on the sample database: row 5 is deleted, and the next car model
    gets the id 6. *)
Lemma X11_ids_are_not_reused_witness :
  ∃ created,
    (create_car_model
       (serve_all (FS := flat_fs) (∅, sample_database) [DeleteCarModel 5]).2
       sample_car).2 = Ok created
    ∧ 5 < car_model_id created.
Proof.
  destruct (X11_ids_are_not_reused (FS := flat_fs) (∅, sample_database) 5
              sample_row_5 [DeleteCarModel 5] sample_car) as [_ Hcreate];
    [apply sample_database_bounded | reflexivity |].
  eexists. split; [reflexivity |]. apply Hcreate. reflexivity.
Defined.


(** X13 on the sample database: row 3 goes, row 5 stays. *)
Lemma X13_delete_frame_witness :
  car_models (delete_car_model sample_database 3).1 !! 5
  = car_models sample_database !! 5
  ∧ (delete_car_model sample_database 9).1 = sample_database.
Proof.
  destruct (X13_delete_frame (R := Z_real) sample_database 3)
    as (Hothers & _).
  destruct (X13_delete_frame (R := Z_real) sample_database 9)
    as (_ & _ & _ & Hmissing & _).
  split; [apply Hothers; lia | apply Hmissing; reflexivity].
Defined.

(** X14 on row 3 of the sample database. *)
Lemma X14_image_of_existing_id_witness :
  car_models
    (update_image_path sample_database 3 (Some "uploaded_images/x1.png")) !! 3
  = Some (@Build_car_row Z_real "Acme" "X2" 2021 7500
            (Some "uploaded_images/x1.png")).
Proof.
  destruct (X14_image_of_existing_id (R := Z_real) (FS := flat_fs) ∅
              {["uploaded_images/x1.png" := "PNG"]} sample_database 3
              sample_row_3 sample_upload) as (_ & _ & Hrow & _);
    [reflexivity | reflexivity | reflexivity |].
  exact Hrow.
Defined.

(** X15 on the sample database, which has no row 9. *)
Lemma X15_delete_image_link_witness :
  respond HTTP_202_ACCEPTED (delete_car_model_image sample_database 9).2
  = Response 202 {| info := "Deleted image link on model id: 9" |}
  ∧ (delete_car_model_image sample_database 9).1 = sample_database.
Proof.
  destruct (X15_delete_image_link (R := Z_real) sample_database 9)
    as (Haccepted & _ & Hmissing & _).
  split; [apply Haccepted; reflexivity | apply Hmissing; reflexivity].
Defined.

(** X16 on rows 1 and 3 of the sample database. *)
Lemma X16_same_filename_witness :
  ∃ db' r1' r2',
    serve_all (FS := flat_fs) (∅, sample_database)
      [PostImage 1 sample_upload;
       PostImage 3 {| filename := "x1.png"; file := "JPG" |}]
    = ({["uploaded_images/x1.png" := "JPG"]}, db')
    ∧ car_models db' !! 1 = Some r1'
    ∧ car_models db' !! 3 = Some r2'
    ∧ row_image_path r1' = Some "uploaded_images/x1.png"
    ∧ row_image_path r2' = Some "uploaded_images/x1.png".
Proof.
  apply (X16_same_filename_same_path (R := Z_real) (FS := flat_fs) ∅
           {["uploaded_images/x1.png" := "PNG"]}
           {["uploaded_images/x1.png" := "JPG"]} sample_database 1 3
           (@Build_car_row Z_real "Acme" "X1" 2020 19999 None) sample_row_3
           sample_upload {| filename := "x1.png"; file := "JPG" |});
    [reflexivity | lia | reflexivity | reflexivity | reflexivity | reflexivity
     | reflexivity |].
  vm_compute. reflexivity.
Defined.

(** X17 on the sample database under the pasted [sort_by]. *)
Lemma X17_list_shows_table_rows_witness :
  ∃ l,
    read_car_models (Q := pasted_queries) sample_database (Some 2)
      (Some pasted_sort_by) None = Ok l
    ∧ NoDup (car_model_id <$> l).
Proof.
  eexists. split; [vm_compute; reflexivity |].
  apply (X17_list_shows_table_rows (R := Z_real) (Q := pasted_queries)
           sample_database (Some 2) (Some pasted_sort_by) None).
  vm_compute. reflexivity.
Defined.

(** X18 on the sample database with [limit=-1]. *)
Lemma X18_unbounded_list_witness :
  ∃ l,
    read_car_models (Q := no_other_queries) sample_database (Some (-1))
      (Some "year") None = Ok l
    ∧ length l = size (car_models sample_database).
Proof.
  destruct (X18_unbounded_list_is_complete (R := Z_real)
              (Q := no_other_queries) sample_database (Some (-1)) (Some Year)
              None) as (l & Hl & _ & Hlen & _);
    [left; simpl; lia | reflexivity | intros k r _; reflexivity |].
  exists l. split; [exact Hl | exact Hlen].
Defined.

(** X19 on the sample database, by year, descending. *)
Lemma X19_list_is_sorted_witness :
  ∃ l,
    read_car_models (Q := no_other_queries) sample_database None
      (Some "year") (Some true) = Ok l
    ∧ Sorted (flip (model_le Year)) l.
Proof.
  eexists. split; [vm_compute; reflexivity |].
  apply (X19_list_is_sorted_by_column (R := Z_real) (Q := no_other_queries)
           sample_database None Year (Some true)).
  vm_compute. reflexivity.
Defined.


(** X21 on the sample database: three draws. *)
Lemma X21_seeding_witness :
  (insert_random_car_models sample_draw sample_database 3).2 = Ok ()
  ∧ Z.of_nat (size (car_models
                      (insert_random_car_models sample_draw sample_database
                         3).1))
    = Z.of_nat (size (car_models sample_database)) + Z.max 0 3.
Proof.
  destruct (X21_seeding_adds_n_rows (R := Z_real) sample_draw sample_database
              3) as [Hadd _].
  apply Hadd; [| reflexivity].
  intros i. split; [| reflexivity].
  change (in_int64 (1990 + Z.of_nat i `mod` 32) = true). unfold in_int64.
  pose proof (Z.mod_pos_bound (Z.of_nat i) 32) as Hyear.
  apply andb_true_iff. split; apply Z.leb_le; lia.
Defined.

(** X22 for the login of ["carol"]. *)
Lemma X22_login_needs_the_password_witness :
  ∃ r, select_user (user_rows registered_users) "carol" = Some r
       ∧ sample_verify "pw" (user_hashed_password r) = true.
Proof.
  destruct (login_issues_token (jws := clear_jws) sample_verify
              (user_rows registered_users) carol_row "carol" "pw" 0 0)
    as (tok & Hlogin & _); [reflexivity.. |].
  destruct (X22_login_needs_the_password (jws := clear_jws) sample_verify
              (user_rows registered_users) "carol" "pw" 0 _ Hlogin)
    as (_ & _ & Hrow).
  exact Hrow.
Defined.

(** X23 for the token whose ["exp"] is the string ["30"], presented at
    second 20. *)
Lemma X23_current_user_witness :
  ∃ u claims name r,
    get_current_user (jws := clear_jws) sample_users string_exp_token
      20000000 = Ok u
    ∧ jws_verify string_exp_token SECRET_KEY [ALGORITHM] = Some claims
    ∧ claims !! "sub" = Some (JStr name)
    ∧ select_user sample_users name = Some r
    ∧ ∀ v, claims !! "exp" = Some v →
           ∃ e, claim_int (jws := clear_jws) v = Some e
                ∧ timegm 20000000 ≤ e.
Proof.
  eexists.
  assert (Hget : get_current_user (jws := clear_jws) sample_users
                   string_exp_token 20000000 = Ok _)
    by (vm_compute; reflexivity).
  destruct (X23_current_user_needs_a_valid_token (jws := clear_jws)
              sample_users string_exp_token 20000000 _ Hget)
    as (claims & name & r & Hv & Hsub & _ & Hrow & _ & Hexp & _).
  exists claims, name, r. eauto 10.
Defined.

(** X24 for the token of ["carol"], presented at second 1. *)
Lemma X24_active_user_witness :
  ∃ tok,
    get_current_active_user (jws := clear_jws) (user_rows registered_users)
      tok 1000000 = Ok (UserInDB_of_row carol_row)
    ∧ disabled (UserInDB_of_row carol_row) = Some false.
Proof.
  destruct (get_current_user_of_issued_token (jws := clear_jws)
              (user_rows registered_users) carol_row "carol" 1 1000000)
    as (tok & _ & Hget & _); [lia | reflexivity | reflexivity | reflexivity |].
  assert (Hactive : get_current_active_user (jws := clear_jws)
                      (user_rows registered_users) tok 1000000
                    = Ok (UserInDB_of_row carol_row)).
  { unfold get_current_active_user. rewrite Hget. reflexivity. }
  exists tok. split; [exact Hactive |].
  apply (X24_active_user_is_enabled (jws := clear_jws)
           (user_rows registered_users) tok 1000000 _ Hactive).
Defined.

